(** * Vartalap landing site: the hero cube, the buttons and the pages

    A shallow embedding of the executable parts of the repository:
    - [Cube]: the closure state of the [HeroCube] effect: cubelets with
      their logical indices, the temporary turn group, [attachLayer],
      [bakeAndUpdateIndices] and the per-frame callback;
    - [Teardown]: the external objects the effect touches and its cleanup;
    - [Buttons]: the click handlers of the five button components, as
      statement lists run by an event loop with timers and one awaited
      promise;
    - [Pages]: the session check of the [Home] and [ComingSoon] pages;
    - [Components]: the body of every component as its statements with
      their blocks;
    - [Pointer]: [updateOrientationFromPointer] over the operations of the
      graphics library, and [Exact]: these operations in exact arithmetic.

    JavaScript numbers that carry real arithmetic (angles, time deltas) are
    binary64 floats, as in the engine; the logical indices and the layer
    number only ever hold -1, 0 and 1 and are integers. *)

From Stdlib Require Import ZArith Bool Lia Floats Uint63 String Reals Lra Psatz RNsatz.
From stdpp Require Import base list.

Set Warnings "-inexact-float,-register-all".

Module Cube.

Local Open Scope Z_scope.

(** ** Data *)

(** [type Axis = 'x' | 'y' | 'z'] *)
Inductive Axis := AxisX | AxisY | AxisZ.

Definition axes : list Axis := [AxisX; AxisY; AxisZ].

(** [m.userData = { i, j, k }] *)
Record UserData := { i : Z; j : Z; k : Z }.

Definition number := float.

Record Vector3 := { vx : number; vy : number; vz : number }.

Definition zero3 : Vector3 := {| vx := 0; vy := 0; vz := 0 |}%float.

(** The local transform of the turn group: [turnGroup.position] and
    [turnGroup.rotation] (Euler angles). *)
Record Group := { position : Vector3; rotation : Vector3 }.

(** Who holds a cubelet in the scene graph: [root] or [turnGroup]. *)
Inductive Parent := Root | TurnGroup.

(** The local matrix of a mesh is kept as the product of its factors, newest
    first.  [Object3D.attach] keeps the world transform, so moving a child
    out of the turn group multiplies its matrix by the group's local
    transform at that moment ([Times]), and moving it in multiplies by the
    inverse ([Over]).  [Translation] is the position set at construction. *)
Inductive Factor :=
| Translation (p : Vector3)
| Times (g : Group)
| Over (g : Group).

Record Mesh := {
  userData : UserData;
  parent : Parent;
  matrix : list Factor
}.

(** [cubelets] is the array of the 27 meshes; a mesh is named by its position
    in that array.  [turn_children] is [turnGroup.children]. *)
Record Scene := {
  cubelets : list Mesh;
  turn_children : list nat;
  turnGroup : Group
}.

(** ** Construction *)

Definition spacing : number := 1.08%float.

Definition number_of_Z (n : Z) : number :=
  if n <? 0 then PrimFloat.opp (PrimFloat.of_uint63 (Uint63.of_Z (- n)))
  else PrimFloat.of_uint63 (Uint63.of_Z n).

(** [for (let i = -1; i <= 1; i++)] *)
Definition loop3 {A} (body : Z -> list A) : list A :=
  body (-1) ++ body 0 ++ body 1.

Definition new_mesh (i j k : Z) : Mesh :=
  {| userData := {| i := i; j := j; k := k |};
     parent := Root;
     matrix := [Translation {| vx := number_of_Z i * spacing;
                               vy := number_of_Z j * spacing;
                               vz := number_of_Z k * spacing |}%float] |}.

Definition initial_scene : Scene :=
  {| cubelets := loop3 (fun i => loop3 (fun j => loop3 (fun k => [new_mesh i j k])));
     turn_children := [];
     turnGroup := {| position := zero3; rotation := zero3 |} |}.

(** ** Scene graph *)

(** [children.splice(children.indexOf(object), 1)] *)
Fixpoint remove_child (n : nat) (l : list nat) : list nat :=
  match l with
  | [] => []
  | m :: l' => if Nat.eqb n m then l' else m :: remove_child n l'
  end.

(** [target.attach(cubelets[n])]: re-parent, keeping the world transform. *)
Definition attach (target : Parent) (n : nat) (s : Scene) : Scene :=
  match cubelets s !! n with
  | None => s
  | Some m =>
    let leave := match parent m with TurnGroup => [Times (turnGroup s)] | Root => [] end in
    let enter := match target with TurnGroup => [Over (turnGroup s)] | Root => [] end in
    let m' := {| userData := userData m; parent := target;
                 matrix := enter ++ leave ++ matrix m |} in
    let detached := match parent m with
                    | TurnGroup => remove_child n (turn_children s)
                    | Root => turn_children s
                    end in
    {| cubelets := <[n := m']> (cubelets s);
       turn_children := match target with
                        | TurnGroup => detached ++ [n]
                        | Root => detached
                        end;
       turnGroup := turnGroup s |}
  end.

(** The coordinate of a cubelet along an axis. *)
Definition coord (a : Axis) (v : UserData) : Z :=
  match a with AxisX => i v | AxisY => j v | AxisZ => k v end.

(** [(a === 'x' && c.userData.i === l) || (a === 'y' && c.userData.j === l)
     || (a === 'z' && c.userData.k === l)] *)
Definition in_layer (a : Axis) (l : Z) (c : Mesh) : bool :=
  match a with
  | AxisX => i (userData c) =? l
  | AxisY => j (userData c) =? l
  | AxisZ => k (userData c) =? l
  end.

(** [while (turnGroup.children.length) root.attach(turnGroup.children[0])];
    every round takes the head child out, so [length] rounds are enough. *)
Fixpoint detach_loop (fuel : nat) (s : Scene) : Scene :=
  match fuel with
  | O => s
  | S fuel' =>
    match turn_children s with
    | [] => s
    | child :: _ => detach_loop fuel' (attach Root child s)
    end
  end.

Definition set_turnGroup (g : Group) (s : Scene) : Scene :=
  {| cubelets := cubelets s; turn_children := turn_children s; turnGroup := g |}.

(** [(c) => { if (in layer) turnGroup.attach(c) }], for [c = cubelets[n]] *)
Definition attach_if_in_layer (a : Axis) (l : Z) (st : Scene) (n : nat) : Scene :=
  match cubelets st !! n with
  | Some c => if in_layer a l c then attach TurnGroup n st else st
  | None => st
  end.

(** [cubelets.forEach(...)] *)
Definition attach_matching (a : Axis) (l : Z) (s : Scene) : Scene :=
  fold_left (attach_if_in_layer a l) (seq 0 (length (cubelets s))) s.

Definition attachLayer (a : Axis) (l : Z) (s : Scene) : Scene :=
  let s := set_turnGroup {| position := zero3; rotation := zero3 |} s in
  let s := detach_loop (length (turn_children s)) s in
  attach_matching a l s.

(** The closure [rot] of [bakeAndUpdateIndices]. *)
Definition rot (a : Axis) (clockwise : number) (v : UserData) : UserData :=
  let pos := (0 <? clockwise)%float in
  match a with
  | AxisX => {| i := i v;
                j := if pos then - k v else k v;
                k := if pos then j v else - j v |}
  | AxisY => {| i := if pos then k v else - k v;
                j := j v;
                k := if pos then - i v else i v |}
  | AxisZ => {| i := if pos then - j v else j v;
                j := if pos then i v else - i v;
                k := k v |}
  end.

Definition relabel (a : Axis) (l : Z) (clockwise : number) (c : Mesh) : Mesh :=
  if in_layer a l c
  then {| userData := rot a clockwise (userData c);
          parent := parent c; matrix := matrix c |}
  else c.

Definition bakeAndUpdateIndices (a : Axis) (l : Z) (clockwise : number)
    (s : Scene) : Scene :=
  (* const children = [...turnGroup.children]; children.forEach(root.attach) *)
  let s := fold_left (fun st child => attach Root child st) (turn_children s) s in
  (* cubelets.forEach(c => { if (in layer) c.userData = rot(c.userData) }) *)
  let s := {| cubelets := relabel a l clockwise <$> cubelets s;
              turn_children := turn_children s;
              turnGroup := turnGroup s |} in
  (* turnGroup.rotation.set(0, 0, 0) *)
  set_turnGroup {| position := position (turnGroup s); rotation := zero3 |} s.

(** ** The animation loop *)

Local Open Scope float_scope.

Definition Math_PI : number := 0x1.921fb54442d18p+1.

(** [Math.min(a, b)]: NaN if either argument is NaN. *)
Definition Math_min (a b : number) : number :=
  if PrimFloat.is_nan a then a
  else if PrimFloat.is_nan b then b
  else if b <? a then b else a.

Definition number_of_nat (n : nat) : number := number_of_Z (Z.of_nat n).

(** [Math.floor(v)] for a [v] in the range [0 <= v < n] that
    [Math.random() * n] lies in: the largest integer below [n] that is at
    most [v]. *)
Fixpoint floor_below (n : nat) (v : number) : nat :=
  match n with
  | O => O
  | S n' => if number_of_nat n' <=? v then n' else floor_below n' v
  end.

(** [pick(arr)] with [random] the value [Math.random()] returned; [d] stands
    for the element the non-null assertion rules out. *)
Definition pick {T} (arr : list T) (random : number) (d : T) : T :=
  nth (floor_below (length arr) (random * number_of_nat (length arr))) arr d.

Definition turnDuration : number := 0.6.

Definition addAxisRotation (g : Group) (a : Axis) (delta : number) : Group :=
  let r := rotation g in
  {| position := position g;
     rotation := match a with
                 | AxisX => {| vx := vx r + delta; vy := vy r; vz := vz r |}
                 | AxisY => {| vx := vx r; vy := vy r + delta; vz := vz r |}
                 | AxisZ => {| vx := vx r; vy := vy r; vz := vz r + delta |}
                 end |}.

Definition setAxisRotation (g : Group) (a : Axis) (value : number) : Group :=
  let r := rotation g in
  {| position := position g;
     rotation := match a with
                 | AxisX => {| vx := value; vy := vy r; vz := vz r |}
                 | AxisY => {| vx := vx r; vy := value; vz := vz r |}
                 | AxisZ => {| vx := vx r; vy := vy r; vz := value |}
                 end |}.

(** The values of the calls of [Math.random()] one frame can make, in the
    order of the calls. *)
Record Random := {
  random_axis : number;
  random_layer : number;
  random_dir : number;
  random_pause : number
}.

Section Animation.

(** The quaternion type of the graphics library and its [slerp]. *)
Context {Quaternion : Type}.
Variable slerp : Quaternion -> Quaternion -> number -> Quaternion.

(** The variables the frame callback closes over. *)
Record Anim := {
  scene : Scene;
  root_quaternion : Quaternion;
  targetQuat : Quaternion;
  nextTurnTime : number;
  turning : bool;
  turnAxis : Axis;
  layer : Z;
  angle : number;
  dir : number
}.

Definition initial_anim (q : Quaternion) : Anim :=
  {| scene := initial_scene;
     root_quaternion := q;
     targetQuat := q;
     nextTurnTime := 1.8;
     turning := false;
     turnAxis := AxisY;
     layer := 0;
     angle := 0;
     dir := 1 |}.

(** [if (!turning && nextTurnTime <= 0) { ... attachLayer(turnAxis, layer) }] *)
Definition start_turn (rnd : Random) (st : Anim) : Anim :=
  if negb (turning st) && (nextTurnTime st <=? 0) then
    let a := pick axes (random_axis rnd) AxisX in
    let l := pick [-1; 0; 1]%Z (random_layer rnd) 0%Z in
    {| scene := attachLayer a l (scene st);
       root_quaternion := root_quaternion st;
       targetQuat := targetQuat st;
       nextTurnTime := nextTurnTime st;
       turning := true;
       turnAxis := a;
       layer := l;
       angle := 0;
       dir := if 0.5 <? random_dir rnd then 1 else -1 |}
  else st.

Definition turn_step (dt : number) (st : Anim) : number :=
  (Math_PI / 2 / turnDuration) * dt * dir st.

(** [angle >= Math.PI / 2 - 1e-3], after [angle += Math.abs(step)]. *)
Definition turn_done (dt : number) (st : Anim) : bool :=
  Math_PI / 2 - 1e-3 <=? angle st + abs (turn_step dt st).

(** [if (turning) { ... }] *)
Definition advance_turn (dt : number) (rnd : Random) (st : Anim) : Anim :=
  if turning st then
    let step := turn_step dt st in
    let angle' := angle st + abs step in
    let sc := set_turnGroup (addAxisRotation (turnGroup (scene st)) (turnAxis st) step)
                            (scene st) in
    if turn_done dt st then
      (* Snap and finish *)
      let sc := set_turnGroup (setAxisRotation (turnGroup sc) (turnAxis st)
                                 (Math_PI / 2 * dir st)) sc in
      let sc := bakeAndUpdateIndices (turnAxis st) (layer st) (dir st) sc in
      let sc := set_turnGroup (setAxisRotation (turnGroup sc) (turnAxis st) 0) sc in
      {| scene := sc;
         root_quaternion := root_quaternion st;
         targetQuat := targetQuat st;
         nextTurnTime := 1.6 + random_pause rnd * 1.2;
         turning := false;
         turnAxis := turnAxis st;
         layer := layer st;
         angle := angle';
         dir := dir st |}
    else
      {| scene := sc;
         root_quaternion := root_quaternion st;
         targetQuat := targetQuat st;
         nextTurnTime := nextTurnTime st;
         turning := true;
         turnAxis := turnAxis st;
         layer := layer st;
         angle := angle';
         dir := dir st |}
  else st.

(** [root.quaternion.slerp(targetQuat, Math.min(1, dt * 5)); nextTurnTime -= dt] *)
Definition orient_and_wait (dt : number) (st : Anim) : Anim :=
  {| scene := scene st;
     root_quaternion :=
       slerp (root_quaternion st) (targetQuat st) (Math_min 1 (dt * 5));
     targetQuat := targetQuat st;
     nextTurnTime := nextTurnTime st - dt;
     turning := turning st;
     turnAxis := turnAxis st;
     layer := layer st;
     angle := angle st;
     dir := dir st |}.

(** The closure where the callback reaches [if (turning)]. *)
Definition at_turn_test (dt : number) (rnd : Random) (st : Anim) : Anim :=
  start_turn rnd (orient_and_wait dt st).

(** The callback given to [renderer.setAnimationLoop], with [dt] the value of
    [clock.getDelta()]. *)
Definition frame (dt : number) (rnd : Random) (st : Anim) : Anim :=
  advance_turn dt rnd (at_turn_test dt rnd st).

(** [onPointerMove] stores the orientation the graphics library computes
    from the pointer position. *)
Definition set_target (q : Quaternion) (st : Anim) : Anim :=
  {| scene := scene st;
     root_quaternion := root_quaternion st;
     targetQuat := q;
     nextTurnTime := nextTurnTime st;
     turning := turning st;
     turnAxis := turnAxis st;
     layer := layer st;
     angle := angle st;
     dir := dir st |}.

(** What the closure can go through: frames and pointer moves. *)
Inductive Input :=
| Frame (dt : number) (rnd : Random)
| PointerMove (q : Quaternion).

Definition react (st : Anim) (e : Input) : Anim :=
  match e with
  | Frame dt rnd => frame dt rnd st
  | PointerMove q => set_target q st
  end.

Definition run (q : Quaternion) (es : list Input) : Anim :=
  fold_left react es (initial_anim q).

End Animation.

(** ** The reference the relabelling is compared with *)

Local Open Scope Z_scope.

(** The right-handed rotation of the integer grid by a quarter turn about an
    axis, written with the rotation matrix for cos = 0 and sin = [sgn]
    ([sgn] is 1 for +90 degrees and -1 for -90 degrees). *)
Definition quarter_turn (a : Axis) (sgn : Z) (v : UserData) : UserData :=
  let c := 0 in
  let s := sgn in
  match a with
  | AxisX => {| i := i v; j := c * j v - s * k v; k := s * j v + c * k v |}
  | AxisY => {| i := c * i v + s * k v; j := j v; k := c * k v - s * i v |}
  | AxisZ => {| i := c * i v - s * j v; j := s * i v + c * j v; k := k v |}
  end.

#[global] Instance UserData_eq_dec : EqDecision UserData.
Proof. solve_decision. Defined.

(** The effect of [bakeAndUpdateIndices] on one index triple. *)
Definition relabel_index (a : Axis) (l : Z) (d : number) (u : UserData) : UserData :=
  if coord a u =? l then rot a d u else u.

Definition in_range (u : UserData) : Prop :=
  (-1 <= i u <= 1) /\ (-1 <= j u <= 1) /\ (-1 <= k u <= 1).

(** Euler angles of a rotation about one axis only. *)
Definition on_axis (a : Axis) (v : number) : Vector3 :=
  match a with
  | AxisX => {| vx := v; vy := 0; vz := 0 |}
  | AxisY => {| vx := 0; vy := v; vz := 0 |}
  | AxisZ => {| vx := 0; vy := 0; vz := v |}
  end%float.

(** The Euler angle of a rotation about one of the axes: [rotation.x],
    [rotation.y] or [rotation.z]. *)
Definition angle_about (a : Axis) (v : Vector3) : number :=
  match a with AxisX => vx v | AxisY => vy v | AxisZ => vz v end.

#[global] Instance Axis_eq_dec : EqDecision Axis.
Proof. solve_decision. Defined.

(** The turn group at its pivot, turned about [a] by a quarter turn in
    direction [d]. *)
Definition snapped (a : Axis) (d : number) : Group :=
  {| position := zero3; rotation := on_axis a (Math_PI / 2 * d)%float |}.

(** The set {-1,0,1}^3, each triple once. *)
Definition grid : list UserData :=
  a ← [-1; 0; 1]; b ← [-1; 0; 1]; c ← [-1; 0; 1]; [{| i := a; j := b; k := c |}].

(** The logical indices of a scene, in the order of the [cubelets] array. *)
Definition indices (s : Scene) : list UserData := userData <$> cubelets s.

Definition indices_ok (s : Scene) : Prop := indices s ≡ₚ grid.

(** The scene graph keeps [child.parent] and [parent.children] in step: the
    children of the turn group are listed once each and are the meshes whose
    parent is the turn group. *)
Definition graph_ok (s : Scene) : Prop :=
  NoDup (turn_children s)
  /\ (forall n, n ∈ turn_children s <->
                exists c, cubelets s !! n = Some c /\ parent c = TurnGroup).

(** What holds of the closure between two callbacks: outside a turn the turn
    group is empty and unrotated; during a turn it is rotated about the turn
    axis only and holds the cubelets of the chosen layer. *)
Definition anim_ok {Quaternion} (st : @Anim Quaternion) : Prop :=
  graph_ok (scene st)
  /\ indices_ok (scene st)
  /\ position (turnGroup (scene st)) = zero3
  /\ (dir st = 1%float \/ dir st = (-1)%float)
  /\ if turning st
     then (exists v, rotation (turnGroup (scene st)) = on_axis (turnAxis st) v)
          /\ (forall n, n ∈ turn_children (scene st) <->
                exists c, cubelets (scene st) !! n = Some c
                          /\ coord (turnAxis st) (userData c) = layer st)
     else turn_children (scene st) = []
          /\ rotation (turnGroup (scene st)) = zero3.

(** A scripted turn as the frame callback issues it: axis, layer, direction. *)
Definition Turn : Type := Axis * Z * number.

Definition bake_turn (s : Scene) (t : Turn) : Scene :=
  let '(a, l, d) := t in bakeAndUpdateIndices a l d s.

(** ** Notions for further properties *)

(** The squared distance of a cubelet from the core: 0 for the core, 1 for
    a face centre, 2 for an edge, 3 for a corner. *)
Definition norm2 (u : UserData) : Z :=
  i u * i u + j u * j u + k u * k u.

(** The turn group at its pivot and unrotated: the identity transform. *)
Definition zero_group : Group := {| position := zero3; rotation := zero3 |}.

(** The factors a matrix may be made of: the position set at construction,
    the identity on entering the turn group, an exact quarter turn about one
    axis on leaving it. *)
Definition quarter_factor (f : Factor) : Prop :=
  match f with
  | Translation _ => True
  | Over g => g = zero_group
  | Times g => exists a d, (d = 1%float \/ d = (-1)%float) /\ g = snapped a d
  end.

(** Every factor of every cubelet's matrix is one of those. *)
Definition matrices_ok (s : Scene) : Prop :=
  forall n c, cubelets s !! n = Some c -> Forall quarter_factor (matrix c).

(** What the layer turns depend on and act on: everything in the closure but
    the two quaternions. *)
Definition turn_state {Quaternion} (st : @Anim Quaternion)
    : Scene * number * bool * Axis * Z * number * number :=
  (scene st, nextTurnTime st, turning st, turnAxis st, layer st, angle st, dir st).

(** The layer number is one of the three the callback picks from. *)
Definition layer_ok {Quaternion} (st : @Anim Quaternion) : Prop :=
  layer st = -1 \/ layer st = 0 \/ layer st = 1.

Definition is_frame {Quaternion} (e : @Input Quaternion) : bool :=
  match e with Frame _ _ => true | PointerMove _ => false end.

(** The interpolation factor of a frame. *)
Definition slerp_factor (dt : number) : number := Math_min 1%float (dt * 5)%float.

End Cube.

(** * The button components *)

Module Buttons.

Local Open Scope string_scope.

(** The value a rejected promise carries. *)
Definition Error := string.

(** The statements the click handlers are made of.  [try_await_signOut] is
    [try { await signOut({ callbackUrl, redirect }) } catch (error) { ... }];
    the handler is suspended there until the promise settles. *)
Inductive Cmd :=
| setIsLoading (b : bool)
| setIsNotified (b : bool)
| setTimeout (callback : list Cmd) (ms : nat)
| console_error (label : string) (error : Error)
| try_await_signOut (callbackUrl : string) (redirect : bool)
                    (catch : Error -> list Cmd).

(** The [useState] cells of a component, the timers it has set, the promise
    it awaits and the console. *)
Record State := {
  isLoading : bool;
  isNotified : bool;
  now : nat;                                          (* milliseconds *)
  timers : list (nat * list Cmd);                     (* due time, callback *)
  awaiting : option ((Error -> list Cmd) * list Cmd); (* catch clause, rest *)
  console : list (string * Error)
}.

(** [useState(false)] for each cell, at mount. *)
Definition initial : State :=
  {| isLoading := false; isNotified := false; now := 0;
     timers := []; awaiting := None; console := [] |}.

(** Run the statements of a handler or of a timer callback.  No statement
    reads a cell, so writing the cells at once or at the next render gives
    the same states between events. *)
Fixpoint run (cs : list Cmd) (s : State) : State :=
  match cs with
  | [] => s
  | setIsLoading b :: rest =>
      run rest {| isLoading := b; isNotified := isNotified s; now := now s;
                  timers := timers s; awaiting := awaiting s; console := console s |}
  | setIsNotified b :: rest =>
      run rest {| isLoading := isLoading s; isNotified := b; now := now s;
                  timers := timers s; awaiting := awaiting s; console := console s |}
  | setTimeout callback ms :: rest =>
      run rest {| isLoading := isLoading s; isNotified := isNotified s; now := now s;
                  timers := timers s ++ [(now s + ms, callback)];
                  awaiting := awaiting s; console := console s |}
  | console_error label error :: rest =>
      run rest {| isLoading := isLoading s; isNotified := isNotified s; now := now s;
                  timers := timers s; awaiting := awaiting s;
                  console := console s ++ [(label, error)] |}
  | try_await_signOut _ _ catch :: rest =>
      {| isLoading := isLoading s; isNotified := isNotified s; now := now s;
         timers := timers s; awaiting := Some (catch, rest); console := console s |}
  end.

(** ** The components *)

Inductive Content :=
| Label (text : string)
| Spinner
| SpinnerAnd (text : string).

(** What a component renders: a link or a button.  A click on a link also
    makes the router leave for [href]; that is the router's doing, not the
    component's, and the component's cells are followed as long as events
    reach it. *)
Record View := {
  onClick : option (list Cmd);
  disabled : bool;
  href : option string;
  content : Content
}.

Module GetStartedButton.
Definition handleClick : list Cmd :=
  [setIsLoading true].
Definition render (s : State) : View :=
  {| onClick := Some handleClick; disabled := false; href := Some "/signin";
     content := if isLoading s then SpinnerAnd "Loading..." else Label "Get Started" |}.
End GetStartedButton.

Module SignInButton.
Definition handleClick : list Cmd :=
  [setIsLoading true].
Definition render (s : State) : View :=
  {| onClick := Some handleClick; disabled := false; href := Some "/signin";
     content := if isLoading s then Spinner else Label "Sign in" |}.
End SignInButton.

Module WatchDemoButton.
Definition handleClick : list Cmd :=
  [setIsLoading true;
   setTimeout [setIsLoading false] 2000].
Definition render (s : State) : View :=
  {| onClick := Some handleClick; disabled := isLoading s; href := None;
     content := if isLoading s then SpinnerAnd "Loading..." else Label "Documentation" |}.
End WatchDemoButton.

Module NotifyMeButton.
Definition handleNotifyMe : list Cmd :=
  [setIsLoading true;
   setTimeout [setIsLoading false;
               setIsNotified true;
               setTimeout [setIsNotified false] 3000] 1500].
Definition render (s : State) : View :=
  if isNotified s then
    {| onClick := None; disabled := false; href := None;
       content := Label "✓ Subscribed!" |}
  else
    {| onClick := Some handleNotifyMe; disabled := isLoading s; href := None;
       content := if isLoading s then Spinner else Label "Notify Me" |}.
End NotifyMeButton.

Module SignOutButton.
Definition handleSignOut : list Cmd :=
  [setIsLoading true;
   try_await_signOut "/" true
     (fun error => [setIsLoading false;
                    console_error "Sign out error:" error])].
Definition render (s : State) : View :=
  {| onClick := Some handleSignOut; disabled := isLoading s; href := None;
     content := if isLoading s then Spinner else Label "Sign out" |}.
End SignOutButton.

(** The button components of the repository. *)
Inductive Button :=
| GetStarted | SignIn | WatchDemo | NotifyMe | SignOut.

Definition render (b : Button) : State -> View :=
  match b with
  | GetStarted => GetStartedButton.render
  | SignIn => SignInButton.render
  | WatchDemo => WatchDemoButton.render
  | NotifyMe => NotifyMeButton.render
  | SignOut => SignOutButton.render
  end.

Definition handler (b : Button) : list Cmd :=
  match b with
  | GetStarted => GetStartedButton.handleClick
  | SignIn => SignInButton.handleClick
  | WatchDemo => WatchDemoButton.handleClick
  | NotifyMe => NotifyMeButton.handleNotifyMe
  | SignOut => SignOutButton.handleSignOut
  end.

(** ** The event loop *)

(** How the awaited [signOut] promise settles. *)
Inductive Outcome := Resolved | Rejected (error : Error).

Inductive Event :=
| Click                      (* the user clicks the rendered element *)
| Tick                       (* one millisecond passes *)
| Settled (r : Outcome).     (* the awaited promise settles *)

(** A click runs the handler unless the element has none or is disabled. *)
Definition click (v : View) (s : State) : State :=
  match onClick v with
  | Some h => if disabled v then s else run h s
  | None => s
  end.

Definition is_due (t : nat) (timer : nat * list Cmd) : bool := Nat.leb (fst timer) t.

(** One millisecond later: the callbacks of the timers that are due run, in
    the order the timers were set. *)
Definition tick (s : State) : State :=
  let t := S (now s) in
  fold_left (fun st timer => run (snd timer) st)
    (List.filter (is_due t) (timers s))
    {| isLoading := isLoading s; isNotified := isNotified s; now := t;
       timers := List.filter (fun timer => negb (is_due t timer)) (timers s);
       awaiting := awaiting s; console := console s |}.

(** The suspended handler goes on: after the [try] block when the promise
    resolved, through the [catch] clause when it was rejected. *)
Definition settle (r : Outcome) (s : State) : State :=
  match awaiting s with
  | None => s
  | Some (catch, rest) =>
      let s' := {| isLoading := isLoading s; isNotified := isNotified s;
                   now := now s; timers := timers s; awaiting := None;
                   console := console s |} in
      match r with
      | Resolved => run rest s'
      | Rejected error => run (catch error ++ rest) s'
      end
  end.

Definition step (b : Button) (s : State) (e : Event) : State :=
  match e with
  | Click => click (render b s) s
  | Tick => tick s
  | Settled r => settle r s
  end.

Definition events (b : Button) (es : list Event) (s : State) : State :=
  fold_left (step b) es s.

(** [n] milliseconds pass. *)
Definition wait (n : nat) : list Event := repeat Tick n.

(** ** Notions the claims are stated with *)

(** Does a statement list contain a [try ... catch]? *)
Fixpoint has_catch (c : Cmd) : bool :=
  match c with
  | setTimeout callback _ => existsb has_catch callback
  | try_await_signOut _ _ _ => true
  | _ => false
  end.

Definition defines_error_handling (b : Button) : bool :=
  existsb has_catch (handler b).

(** Nothing pending: the state of a component at rest. *)
Definition idle (s : State) : Prop :=
  isLoading s = false /\ isNotified s = false
  /\ timers s = [] /\ awaiting s = None.

(** The same state, at a later time. *)
Definition at_time (t : nat) (s : State) : State :=
  {| isLoading := isLoading s; isNotified := isNotified s; now := t;
     timers := timers s; awaiting := awaiting s; console := console s |}.

(** The three phases of NotifyMeButton: at rest; loading, with the 1500 ms
    timer running; notified, with the 3000 ms timer running. *)
Inductive NotifyPhase := AtRest | Loading (due : nat) | Notified (due : nat).

Definition in_phase (p : NotifyPhase) (s : State) : Prop :=
  awaiting s = None /\
  match p with
  | AtRest => isLoading s = false /\ isNotified s = false /\ timers s = []
  | Loading due =>
      isLoading s = true /\ isNotified s = false /\ now s < due
      /\ timers s = [(due, [setIsLoading false; setIsNotified true;
                            setTimeout [setIsNotified false] 3000])]
  | Notified due =>
      isLoading s = false /\ isNotified s = true /\ now s < due
      /\ timers s = [(due, [setIsNotified false])]
  end.

(** SignOutButton between the click and the settling of [signOut]. *)
Definition signing_out (log : list (string * Error)) (s : State) : Prop :=
  isLoading s = true /\ timers s = [] /\ console s = log
  /\ awaiting s = Some (fun error => [setIsLoading false;
                                      console_error "Sign out error:" error], []).

(** A component that shows its spinner with nothing left that could end it. *)
Definition stuck_loading (s : State) : Prop :=
  isLoading s = true /\ timers s = [] /\ awaiting s = None.

(** An event other than a rejection of the awaited promise. *)
Definition no_rejection (e : Event) : Prop :=
  match e with Settled (Rejected _) => False | _ => True end.

(** A click or the passing of time. *)
Definition not_settling (e : Event) : Prop :=
  match e with Settled _ => False | _ => True end.

(** Can running a statement write to the console, now or later?  It can if
    it is a [console.error], a [try] whose [catch] clause may hold one, or a
    timer whose callback can. *)
Fixpoint may_log (c : Cmd) : bool :=
  match c with
  | console_error _ _ => true
  | try_await_signOut _ _ _ => true
  | setTimeout callback _ => existsb may_log callback
  | _ => false
  end.

(** A component that wrote nothing to the console and holds nothing that
    could. *)
Definition silent (s : State) : Prop :=
  console s = [] /\ awaiting s = None
  /\ Forall (fun timer => existsb may_log (snd timer) = false) (timers s).

(** WatchDemoButton: at rest, or loading with its one timer due within
    2000 ms. *)
Definition watch_phase (s : State) : Prop :=
  awaiting s = None /\
  ((isLoading s = false /\ timers s = [])
   \/ (isLoading s = true
       /\ exists due, timers s = [(due, [setIsLoading false])]
                      /\ now s < due <= now s + 2000)).

(** NotifyMeButton in a phase whose timer is due within its delay. *)
Definition in_phase_within (p : NotifyPhase) (s : State) : Prop :=
  in_phase p s /\
  match p with
  | AtRest => True
  | Loading due => due <= now s + 1500
  | Notified due => due <= now s + 3000
  end.

(** The events of sign-out attempts that all fail, one error each. *)
Definition failed_attempts (errors : list Error) : list Event :=
  flat_map (fun error => [Click; Settled (Rejected error)]) errors.

Definition rejections (es : list Event) : nat :=
  length (List.filter (fun e => match e with Settled (Rejected _) => true | _ => false end) es).

(** After a click some course of events brings the loading flag back to
    [false]. *)
Definition resets_loading (b : Button) : Prop :=
  exists es, isLoading (events b (Click :: es) initial) = false.

End Buttons.

(** * Teardown of the cube effect *)

Module Teardown.

(** The objects outside the closure that the [HeroCube] effect reaches. *)
Inductive Element := Canvas | OtherElement (n : nat).
Inductive Listener := onPointerMove | OtherListener (n : nat).
Inductive Target := Container.
Inductive Callback := FrameCallback.
Inductive Renderer := TheRenderer.

#[global] Instance Element_eq_dec : EqDecision Element.
Proof. solve_decision. Defined.
#[global] Instance Listener_eq_dec : EqDecision Listener.
Proof. solve_decision. Defined.

Record World := {
  ro_observes : list Target;            (* what the ResizeObserver [ro] observes *)
  window_pointermove : list Listener;   (* 'pointermove' listeners on [window] *)
  animationLoop : option Callback;      (* the renderer's animation loop *)
  renderer_disposed : bool;
  pmrem_disposed : bool;
  container_children : list Element;    (* child nodes of the container *)
  rendererRef_current : option Renderer;
  geometry_disposed : bool;
  material_disposed : bool;
  environment_disposed : bool
}.

(** [list.splice(list.indexOf(x), 1)], nothing when [x] is absent. *)
Fixpoint remove_first {A} `{EqDecision A} (x : A) (l : list A) : list A :=
  match l with
  | [] => []
  | y :: l' => if decide (x = y) then l' else y :: remove_first x l'
  end.

(** [addEventListener] ignores a listener that is registered already. *)
Definition add_listener (f : Listener) (l : list Listener) : list Listener :=
  if decide (f ∈ l) then l else l ++ [f].

(** What the body of the effect does to the world.  The renderer and the
    PMREM generator are new objects. *)
Definition mount (w : World) : World :=
  {| ro_observes := ro_observes w ++ [Container];
     window_pointermove := add_listener onPointerMove (window_pointermove w);
     animationLoop := Some FrameCallback;
     renderer_disposed := false;
     pmrem_disposed := false;
     container_children := remove_first Canvas (container_children w) ++ [Canvas];
     rendererRef_current := Some TheRenderer;
     geometry_disposed := geometry_disposed w;
     material_disposed := material_disposed w;
     environment_disposed := environment_disposed w |}.

(** How a call ends: it returns or it throws, and the world is as the call
    left it either way. *)
Inductive Completion :=
| Returned (w : World)
| Thrown (w : World).

(** [container.removeChild(child)] throws when [child] is not a child. *)
Definition removeChild (child : Element) (w : World) : Completion :=
  if decide (child ∈ container_children w) then
    Returned {| ro_observes := ro_observes w;
                window_pointermove := window_pointermove w;
                animationLoop := animationLoop w;
                renderer_disposed := renderer_disposed w;
                pmrem_disposed := pmrem_disposed w;
                container_children := remove_first child (container_children w);
                rendererRef_current := rendererRef_current w;
                geometry_disposed := geometry_disposed w;
                material_disposed := material_disposed w;
                environment_disposed := environment_disposed w |}
  else Thrown w.

Definition ro_disconnect (w : World) : World :=
  {| ro_observes := [];
     window_pointermove := window_pointermove w;
     animationLoop := animationLoop w;
     renderer_disposed := renderer_disposed w;
     pmrem_disposed := pmrem_disposed w;
     container_children := container_children w;
     rendererRef_current := rendererRef_current w;
     geometry_disposed := geometry_disposed w;
     material_disposed := material_disposed w;
     environment_disposed := environment_disposed w |}.

Definition removeEventListener (f : Listener) (w : World) : World :=
  {| ro_observes := ro_observes w;
     window_pointermove := remove_first f (window_pointermove w);
     animationLoop := animationLoop w;
     renderer_disposed := renderer_disposed w;
     pmrem_disposed := pmrem_disposed w;
     container_children := container_children w;
     rendererRef_current := rendererRef_current w;
     geometry_disposed := geometry_disposed w;
     material_disposed := material_disposed w;
     environment_disposed := environment_disposed w |}.

Definition setAnimationLoop (f : option Callback) (w : World) : World :=
  {| ro_observes := ro_observes w;
     window_pointermove := window_pointermove w;
     animationLoop := f;
     renderer_disposed := renderer_disposed w;
     pmrem_disposed := pmrem_disposed w;
     container_children := container_children w;
     rendererRef_current := rendererRef_current w;
     geometry_disposed := geometry_disposed w;
     material_disposed := material_disposed w;
     environment_disposed := environment_disposed w |}.

Definition renderer_dispose (w : World) : World :=
  {| ro_observes := ro_observes w;
     window_pointermove := window_pointermove w;
     animationLoop := animationLoop w;
     renderer_disposed := true;
     pmrem_disposed := pmrem_disposed w;
     container_children := container_children w;
     rendererRef_current := rendererRef_current w;
     geometry_disposed := geometry_disposed w;
     material_disposed := material_disposed w;
     environment_disposed := environment_disposed w |}.

Definition pmrem_dispose (w : World) : World :=
  {| ro_observes := ro_observes w;
     window_pointermove := window_pointermove w;
     animationLoop := animationLoop w;
     renderer_disposed := renderer_disposed w;
     pmrem_disposed := true;
     container_children := container_children w;
     rendererRef_current := rendererRef_current w;
     geometry_disposed := geometry_disposed w;
     material_disposed := material_disposed w;
     environment_disposed := environment_disposed w |}.

(** The function the effect returns.  Its last statement is the only one
    that can throw; the five before it have taken effect by then. *)
Definition teardown (w : World) : Completion :=
  let w := ro_disconnect w in
  let w := removeEventListener onPointerMove w in
  let w := setAnimationLoop None w in
  let w := renderer_dispose w in
  let w := pmrem_dispose w in
  removeChild Canvas w.

End Teardown.

(** * The pages *)

Module Pages.

Local Open Scope string_scope.

(** The session of the authentication library: every field of the user may
    be missing. *)
Record User := {
  name : option string;
  email : option string;
  image : option string
}.

Record Session := {
  user : option User;
  expires : string
}.

(** A page either redirects or renders. *)
Inductive Response (page : Type) :=
| Redirect (url : string)
| Render (p : page).
Arguments Redirect {page} url.
Arguments Render {page} p.

(** [session?.user], for the [Session | null] that [auth()] returns. *)
Definition session_user (session : option Session) : option User :=
  match session with
  | Some s => user s
  | None => None
  end.

(** The landing page shows nothing of the session. *)
Inductive LandingPage := Landing.

Definition Home (session : option Session) : Response LandingPage :=
  match session_user session with
  | Some _ => Redirect "/home"
  | None => Render Landing
  end.

(** What the ComingSoon page shows of the session: the avatar and the name
    in the header. *)
Record ComingSoonPage := {
  avatar_src : string;
  avatar_alt : string;
  shown_name : option string
}.

Definition ComingSoon (session : option Session) : Response ComingSoonPage :=
  match session_user session with
  | None => Redirect "/"
  | Some u =>
      Render {| avatar_src := default "/placeholder-avatar.png" (image u);
                avatar_alt := default "User" (name u);
                shown_name := name u |}
  end.

(** ** Notions the claim is stated with *)

Definition has_user (session : option Session) : bool :=
  match session_user session with Some _ => true | None => false end.

(** A page that uses the session only to test whether it has a user. *)
Definition presence_only {A} (page : option Session -> A) : Prop :=
  forall s1 s2, has_user s1 = has_user s2 -> page s1 = page s2.

Definition redirect_of {page} (r : Response page) : option string :=
  match r with Redirect url => Some url | Render _ => None end.

(** ** The two routes and the redirects between them *)

(** What the visitor ends up seeing. *)
Inductive Shown :=
| ShowLanding
| ShowComingSoon (p : ComingSoonPage).

(** Home is served at "/" and ComingSoon at "/home", as their redirects to
    each other say. *)
Definition route (url : string) (session : option Session) : option (Response Shown) :=
  if String.eqb url "/" then
    Some match Home session with
         | Redirect u => Redirect u
         | Render Landing => Render ShowLanding
         end
  else if String.eqb url "/home" then
    Some match ComingSoon session with
         | Redirect u => Redirect u
         | Render p => Render (ShowComingSoon p)
         end
  else None.

(** Request [url], following at most [redirects] redirects; [None] when a
    redirect is still pending then, or the route is unknown. *)
Fixpoint visit (redirects : nat) (url : string) (session : option Session)
    : option Shown :=
  match route url session with
  | Some (Render p) => Some p
  | Some (Redirect u) =>
      match redirects with
      | O => None
      | S n => visit n u session
      end
  | None => None
  end.

End Pages.

(** * The components, statement by statement *)

Module Components.

Local Open Scope string_scope.

(** The body of a function as the list of its statements, with their blocks.
    [Simple] is a statement that holds no block and no function (a
    declaration, an assignment, a call, a [return] of JSX); [Closure] is a
    statement that declares, binds or passes on a function, given with the
    body of that function (the expression of an arrow function without
    braces is its one statement); [If], [For] and [While] carry their
    blocks.  [Try] is [try { block } catch (error) { handler }] and
    [OnRejected] a function given to a promise for its rejection
    ([.catch(f)], [.then(g, f)]): the two ways the language has of
    reacting to an error.  The strings quote the statement. *)
Inductive Stmt :=
| Simple (text : string)
| Closure (text : string) (body : list Stmt)
| If (condition : string) (then_ else_ : list Stmt)
| For (head : string) (body : list Stmt)
| While (condition : string) (body : list Stmt)
| Try (block handler : list Stmt)
| OnRejected (text : string) (handler : list Stmt).

(** The statements of the click handlers, from the handlers that the event
    loop of [Buttons] runs. *)
Fixpoint of_cmd (c : Buttons.Cmd) : Stmt :=
  match c with
  | Buttons.setIsLoading b =>
      Simple (if b then "setIsLoading(true)" else "setIsLoading(false)")
  | Buttons.setIsNotified b =>
      Simple (if b then "setIsNotified(true)" else "setIsNotified(false)")
  | Buttons.setTimeout callback _ =>
      Closure "setTimeout(() => ..., ms)" (List.map of_cmd callback)
  | Buttons.console_error label _ =>
      Simple ("console.error(" ++ label ++ ", error)")
  | Buttons.try_await_signOut _ _ catch =>
      Try [Simple "await signOut({ callbackUrl, redirect })"]
          (List.map of_cmd (catch "error"))
  end.

(** Every function component of the repository. *)
Inductive Component :=
| GetStartedButton | SignInButton | WatchDemoButton | HeroCube
| NotifyMeButton | SignOutButton
| Home | ComingSoon | RootLayout | SignIn
| IconNode | IconPython | IconGo | IconRust | IconJava
| IconElixir | IconDotnet | IconRest | IconSmtp | IconBolt.

(** The effect of [HeroCube]: the function given to [useEffect]. *)
Definition HeroCube_effect : list Stmt :=
  [Simple "const container = containerRef.current!";
   Simple "const width = container.clientWidth";
   Simple "const height = container.clientHeight";
   Simple "const scene = new Scene()";
   Simple "scene.background = null";
   Simple "const camera = new PerspectiveCamera(38, width / height, 0.1, 100)";
   Simple "camera.position.set(4.2, 2.6, 6)";
   Simple "const renderer = new WebGLRenderer({ antialias: true, alpha: true })";
   Simple "renderer.outputColorSpace = SRGBColorSpace";
   Simple "renderer.setPixelRatio(Math.min(window.devicePixelRatio, 2))";
   Simple "renderer.setSize(width, height, false)";
   Simple "renderer.setClearColor(0x000000, 0)";
   Simple "Object.assign(renderer.domElement.style, { ... })";
   Simple "renderer.shadowMap.enabled = true";
   Simple "container.appendChild(renderer.domElement)";
   Simple "rendererRef.current = renderer";
   Simple "const pmrem = new PMREMGenerator(renderer)";
   Simple "const env = pmrem.fromScene(new RoomEnvironment(), 0.02).texture";
   Simple "scene.environment = env";
   Simple "const ambient = new AmbientLight(0xffffff, 0.3)";
   Simple "scene.add(ambient)";
   Simple "const key = new DirectionalLight(0xffffff, 0.7)";
   Simple "key.position.set(5, 6, 4)";
   Simple "key.castShadow = true";
   Simple "scene.add(key)";
   Simple "const rim = new DirectionalLight(0xffffff, 0.5)";
   Simple "rim.position.set(-6, -3, -4)";
   Simple "scene.add(rim)";
   Simple "const root = new Group()";
   Simple "scene.add(root)";
   Simple "const spacing = 1.08";
   Simple "const size = 0.98";
   Simple "const radius = 0.08";
   Simple "const geometry = new RoundedBoxGeometry(size, size, size, 4, radius)";
   Simple "const material = new MeshPhysicalMaterial({ ... })";
   Simple "const cubelets = []";
   For "let i = -1; i <= 1; i++"
     [For "let j = -1; j <= 1; j++"
        [For "let k = -1; k <= 1; k++"
           [Simple "const m = new Mesh(geometry, material)";
            Simple "m.position.set(i * spacing, j * spacing, k * spacing)";
            Simple "m.castShadow = true";
            Simple "m.receiveShadow = true";
            Simple "m.userData = { i, j, k }";
            Simple "root.add(m)";
            Simple "cubelets.push(m)"]]];
   Simple "const bbox = new Box3().setFromObject(root)";
   Simple "const sphere = new Sphere()";
   Simple "bbox.getBoundingSphere(sphere)";
   Simple "const center = sphere.center.clone()";
   Simple "const initialDir = camera.position.clone().sub(center).normalize()";
   Closure "function frameToView()"
     [Simple "const fovY = MathUtils.degToRad(camera.fov)";
      Simple "const fovX = 2 * Math.atan(Math.tan(fovY / 2) * camera.aspect)";
      Simple "const r = sphere.radius * 1.25";
      Simple "const distY = r / Math.sin(fovY / 2)";
      Simple "const distX = r / Math.sin(fovX / 2)";
      Simple "const dist = Math.max(distX, distY)";
      Simple "camera.position.copy(center).add(initialDir.clone().multiplyScalar(dist))";
      Simple "camera.lookAt(center)"];
   Simple "frameToView()";
   Simple "const turnGroup = new Group()";
   Simple "root.add(turnGroup)";
   Simple "const axes = ['x', 'y', 'z']";
   Closure "const pick = (arr) =>"
     [Simple "arr[Math.floor(Math.random() * arr.length)]!"];
   Simple "let nextTurnTime = 1.8";
   Simple "let turning = false";
   Simple "let turnAxis = 'y'";
   Simple "let layer = 0";
   Simple "let angle = 0";
   Simple "const turnDuration = 0.6";
   Simple "let dir = 1";
   Closure "function attachLayer(a, l)"
     [Simple "turnGroup.position.set(0, 0, 0)";
      Simple "turnGroup.rotation.set(0, 0, 0)";
      While "turnGroup.children.length"
        [Simple "const child = turnGroup.children[0]";
         Simple "child.updateMatrixWorld(true)";
         Simple "root.attach(child)"];
      Closure "cubelets.forEach((c) => ...)"
        [If "(a === 'x' && c.userData.i === l) || ..."
           [Simple "turnGroup.attach(c)"]
           []]];
   Closure "function bakeAndUpdateIndices(a, l, clockwise)"
     [Simple "const children = [...turnGroup.children]";
      Closure "children.forEach((child) => ...)"
        [Simple "child.updateMatrixWorld(true)";
         Simple "root.attach(child)"];
      Closure "const rot = (v) =>"
        [Simple "const { i, j, k } = v";
         If "a === 'x'"
           [Simple "return { i, j: clockwise > 0 ? -k : k, k: clockwise > 0 ? j : -j }"]
           [];
         If "a === 'y'"
           [Simple "return { i: clockwise > 0 ? k : -k, j, k: clockwise > 0 ? -i : i }"]
           [];
         Simple "return { i: clockwise > 0 ? -j : j, j: clockwise > 0 ? i : -i, k }"];
      Closure "cubelets.forEach((c) => ...)"
        [If "(a === 'x' && c.userData.i === l) || ..."
           [Simple "c.userData = rot(c.userData)"]
           []];
      Simple "turnGroup.rotation.set(0, 0, 0)"];
   Simple "const clock = new Clock()";
   Simple "const cornerVec = new Vector3(1, 1, 1).normalize()";
   Simple "const targetQuat = new Quaternion().copy(root.quaternion)";
   Closure "function updateOrientationFromPointer(clientX, clientY)"
     [Simple "const ndc = new Vector2(...)";
      Simple "const rayPoint = new Vector3(ndc.x, ndc.y, 0.5).unproject(camera)";
      Simple "const dir = rayPoint.sub(camera.position).normalize()";
      Simple "const dist = camera.position.distanceTo(center)";
      Simple "const hit = camera.position.clone().add(dir.multiplyScalar(dist))";
      Simple "const desiredDir = hit.sub(center).normalize()";
      Simple "targetQuat.setFromUnitVectors(cornerVec, desiredDir)"];
   Closure "const onPointerMove = (e) =>"
     [Simple "updateOrientationFromPointer(e.clientX, e.clientY)"];
   Simple "window.addEventListener('pointermove', onPointerMove)";
   Closure "const addAxisRotation = (obj, a, delta) =>"
     [If "a === 'x'"
        [Simple "obj.rotation.x += delta"]
        [If "a === 'y'"
           [Simple "obj.rotation.y += delta"]
           [Simple "obj.rotation.z += delta"]]];
   Closure "const setAxisRotation = (obj, a, value) =>"
     [If "a === 'x'"
        [Simple "obj.rotation.x = value"]
        [If "a === 'y'"
           [Simple "obj.rotation.y = value"]
           [Simple "obj.rotation.z = value"]]];
   Closure "renderer.setAnimationLoop(() => ...)"
     [Simple "const dt = clock.getDelta()";
      Simple "root.quaternion.slerp(targetQuat, Math.min(1, dt * 5))";
      Simple "nextTurnTime -= dt";
      If "!turning && nextTurnTime <= 0"
        [Simple "turning = true";
         Simple "angle = 0";
         Simple "turnAxis = pick(axes)";
         Simple "layer = pick([-1, 0, 1])";
         Simple "dir = Math.random() > 0.5 ? 1 : -1";
         Simple "attachLayer(turnAxis, layer)"]
        [];
      If "turning"
        [Simple "const step = (Math.PI / 2 / turnDuration) * dt * dir";
         Simple "angle += Math.abs(step)";
         Simple "addAxisRotation(turnGroup, turnAxis, step)";
         If "angle >= Math.PI / 2 - 1e-3"
           [Simple "setAxisRotation(turnGroup, turnAxis, (Math.PI / 2) * dir)";
            Simple "bakeAndUpdateIndices(turnAxis, layer, dir)";
            Simple "setAxisRotation(turnGroup, turnAxis, 0)";
            Simple "turning = false";
            Simple "nextTurnTime = 1.6 + Math.random() * 1.2"]
           []]
        [];
      Simple "renderer.render(scene, camera)"];
   Closure "const onResize = () =>"
     [Simple "const w = container.clientWidth";
      Simple "const h = container.clientHeight";
      Simple "camera.aspect = w / h";
      Simple "camera.updateProjectionMatrix()";
      Simple "renderer.setSize(w, h, false)";
      Simple "frameToView()"];
   Simple "const ro = new ResizeObserver(onResize)";
   Simple "ro.observe(container)";
   Closure "return () =>"
     [Simple "ro.disconnect()";
      Simple "window.removeEventListener('pointermove', onPointerMove)";
      Simple "renderer.setAnimationLoop(null)";
      Simple "renderer.dispose()";
      Simple "pmrem.dispose()";
      Simple "container.removeChild(renderer.domElement)"]].

(** The body of each component. *)
Definition code (c : Component) : list Stmt :=
  match c with
  | GetStartedButton =>
      [Simple "const [isLoading, setIsLoading] = useState(false)";
       Closure "const handleClick = () =>"
         (List.map of_cmd Buttons.GetStartedButton.handleClick);
       Simple "return <Link href='/signin' onClick={handleClick}>"]
  | SignInButton =>
      [Simple "const [isLoading, setIsLoading] = useState(false)";
       Closure "const handleClick = () =>"
         (List.map of_cmd Buttons.SignInButton.handleClick);
       Simple "return <Link href='/signin' onClick={handleClick}>"]
  | WatchDemoButton =>
      [Simple "const [isLoading, setIsLoading] = useState(false)";
       Closure "const handleClick = () =>"
         (List.map of_cmd Buttons.WatchDemoButton.handleClick);
       Simple "return <button onClick={handleClick} disabled={isLoading}>"]
  | HeroCube =>
      [Simple "const containerRef = useRef(null)";
       Simple "const rendererRef = useRef(null)";
       Closure "useEffect(() => ..., [])" HeroCube_effect;
       Simple "return <div ref={containerRef} />"]
  | NotifyMeButton =>
      [Simple "const [isLoading, setIsLoading] = useState(false)";
       Simple "const [isNotified, setIsNotified] = useState(false)";
       Closure "const handleNotifyMe = async () =>"
         (List.map of_cmd Buttons.NotifyMeButton.handleNotifyMe);
       If "isNotified"
         [Simple "return <button>"]
         [];
       Simple "return <button onClick={handleNotifyMe} disabled={isLoading}>"]
  | SignOutButton =>
      [Simple "const [isLoading, setIsLoading] = useState(false)";
       Closure "const handleSignOut = async () =>"
         (List.map of_cmd Buttons.SignOutButton.handleSignOut);
       Simple "return <button onClick={handleSignOut} disabled={isLoading}>"]
  | Home =>
      [Simple "const session = await auth()";
       If "session?.user"
         [Simple "redirect('/home')"]
         [];
       Closure "Array.from({ length: 5 }).map((_, i) => ...)" [Simple "<svg key={i}>"];
       Closure "Array.from({ length: 5 }).map((_, i) => ...)" [Simple "<svg key={i}>"];
       Closure "Array.from({ length: 5 }).map((_, i) => ...)" [Simple "<svg key={i}>"];
       Closure "['Raycast', ...].map((b) => ...)" [Simple "<div key={b}>"];
       Simple "return <main>"]
  | ComingSoon =>
      [Simple "const session = await auth()";
       If "!session?.user"
         [Simple "redirect('/')"]
         [];
       Simple "return <main>"]
  | RootLayout =>
      [Simple "return <html>"]
  | SignIn =>
      [Closure "useEffect(() => ..., [])"
         [Simple "void signIn('google', { callbackUrl: '/home' })"];
       Simple "return <div>"]
  | IconNode | IconPython | IconGo | IconRust | IconJava
  | IconElixir | IconDotnet | IconRest | IconSmtp | IconBolt =>
      [Simple "return <svg {...props}>"]
  end.

(** Does a statement hold, at any depth, a branch that reacts to an error? *)
Fixpoint handles_errors (s : Stmt) : bool :=
  match s with
  | Simple _ => false
  | Closure _ body => existsb handles_errors body
  | If _ then_ else_ => existsb handles_errors then_ || existsb handles_errors else_
  | For _ body => existsb handles_errors body
  | While _ body => existsb handles_errors body
  | Try _ _ => true
  | OnRejected _ _ => true
  end.

Definition has_error_branch (c : Component) : bool :=
  existsb handles_errors (code c).

End Components.

(** * The cursor and the target orientation *)

Module Pointer.
Import Cube.

(** What [updateOrientationFromPointer] uses of the graphics library:
    numbers, [Vector3], [Quaternion] and the camera.  The library is not
    part of the repository, so its operations are taken as given.  A method
    that changes its receiver and returns it is a function of the old
    value: in [updateOrientationFromPointer] no vector is read again under
    its old name once a method has changed it, [camera.position] is cloned
    before [add], and [center] and [cornerVec] are only read. *)
Class Three := {
  Num : Type;
  Vec : Type;                                   (* Vector3 *)
  Quat : Type;                                  (* Quaternion *)
  Camera : Type;                                (* PerspectiveCamera *)
  literal : Z -> Num;                           (* 1, 2, ... *)
  half : Num;                                   (* 0.5 *)
  plus : Num -> Num -> Num;
  minus : Num -> Num -> Num;
  times : Num -> Num -> Num;
  divide : Num -> Num -> Num;
  negate : Num -> Num;
  new_Vector3 : Num -> Num -> Num -> Vec;
  camera_position : Camera -> Vec;
  Vector3_unproject : Vec -> Camera -> Vec;
  Vector3_add : Vec -> Vec -> Vec;
  Vector3_sub : Vec -> Vec -> Vec;
  Vector3_multiplyScalar : Vec -> Num -> Vec;
  Vector3_normalize : Vec -> Vec;
  Vector3_length : Vec -> Num;
  Vector3_distanceTo : Vec -> Vec -> Num;
  Vector3_applyQuaternion : Vec -> Quat -> Vec;
  Quaternion_setFromUnitVectors : Vec -> Vec -> Quat
}.

(** What the library's documentation says of three of them:
    [normalize] turns a vector into one of length 1 (there is none for a
    vector of length 0); [setFromUnitVectors(vFrom, vTo)] is the rotation
    that takes the direction [vFrom] to the direction [vTo], both of
    length 1; and the length of (1, 1, 1) is not 0. *)
Record documented `{Three} : Prop := {
  normalize_is_unit (v : Vec) :
    Vector3_length v <> literal 0 ->
    Vector3_length (Vector3_normalize v) = literal 1;
  setFromUnitVectors_rotates (vFrom vTo : Vec) :
    Vector3_length vFrom = literal 1 -> Vector3_length vTo = literal 1 ->
    Vector3_applyQuaternion vFrom (Quaternion_setFromUnitVectors vFrom vTo) = vTo;
  ones_have_length :
    Vector3_length (new_Vector3 (literal 1) (literal 1) (literal 1)) <> literal 0
}.
Arguments documented : clear implicits.

Section Orientation.

Context `{Three}.

(** What the function reads besides its arguments: the camera, as
    [frameToView] and [onResize] last left it, the center of the cube and
    the size of the window. *)
Record View := {
  camera : Camera;
  center : Vec;
  innerWidth : Num;
  innerHeight : Num
}.

(** [new Vector3(1, 1, 1).normalize()] *)
Definition cornerVec : Vec :=
  Vector3_normalize (new_Vector3 (literal 1) (literal 1) (literal 1)).

(** The value [targetQuat] is set to. *)
Definition updateOrientationFromPointer (v : View) (clientX clientY : Num) : Quat :=
  let ndc_x := minus (times (divide clientX (innerWidth v)) (literal 2)) (literal 1) in
  let ndc_y := plus (times (negate (divide clientY (innerHeight v))) (literal 2))
                    (literal 1) in
  let rayPoint := Vector3_unproject (new_Vector3 ndc_x ndc_y half) (camera v) in
  let dir := Vector3_normalize (Vector3_sub rayPoint (camera_position (camera v))) in
  let dist := Vector3_distanceTo (camera_position (camera v)) (center v) in
  let hit := Vector3_add (camera_position (camera v)) (Vector3_multiplyScalar dir dist) in
  let desiredDir := Vector3_normalize (Vector3_sub hit (center v)) in
  Quaternion_setFromUnitVectors cornerVec desiredDir.

(** [onPointerMove]: the closure after a pointer event at
    ([clientX], [clientY]). *)
Definition onPointerMove (v : View) (clientX clientY : Num)
    (st : @Anim Quat) : @Anim Quat :=
  set_target (updateOrientationFromPointer v clientX clientY) st.

(** ** The direction the orientation is described with *)

(** The cursor in normalized device coordinates: across the window from -1
    at the left edge to 1 at the right one, and from 1 at the top to -1 at
    the bottom. *)
Definition cursor_ndc_x (v : View) (clientX : Num) : Num :=
  minus (times (divide clientX (innerWidth v)) (literal 2)) (literal 1).

Definition cursor_ndc_y (v : View) (clientY : Num) : Num :=
  plus (times (negate (divide clientY (innerHeight v))) (literal 2)) (literal 1).

(** A point of the scene that the camera shows at the cursor. *)
Definition under_cursor (v : View) (clientX clientY : Num) : Vec :=
  Vector3_unproject
    (new_Vector3 (cursor_ndc_x v clientX) (cursor_ndc_y v clientY) half) (camera v).

(** The direction of the ray from the camera through the cursor. *)
Definition ray_direction (v : View) (clientX clientY : Num) : Vec :=
  Vector3_normalize
    (Vector3_sub (under_cursor v clientX clientY) (camera_position (camera v))).

(** The point of that ray as far from the camera as the center of the cube
    is. *)
Definition point_at_center_depth (v : View) (clientX clientY : Num) : Vec :=
  Vector3_add (camera_position (camera v))
    (Vector3_multiplyScalar (ray_direction v clientX clientY)
       (Vector3_distanceTo (camera_position (camera v)) (center v))).

(** From the center of the cube to that point, and the direction of it. *)
Definition from_center (v : View) (clientX clientY : Num) : Vec :=
  Vector3_sub (point_at_center_depth v clientX clientY) (center v).

Definition direction_from_center (v : View) (clientX clientY : Num) : Vec :=
  Vector3_normalize (from_center v clientX clientY).

(** The target orientation takes the corner direction, of length 1, to the
    direction from the center to the point, of length 1. *)
Definition orients_corner (v : View) (clientX clientY : Num) : Prop :=
  Vector3_length cornerVec = literal 1
  /\ Vector3_length (direction_from_center v clientX clientY) = literal 1
  /\ Vector3_applyQuaternion cornerVec (updateOrientationFromPointer v clientX clientY)
     = direction_from_center v clientX clientY.

End Orientation.

End Pointer.

(** * The graphics library in exact arithmetic *)

(** The operations of [Pointer.Three] over the real numbers, with the
    formulas of the library: what the library computes when no operation
    rounds.  (The library's test for opposite vectors in
    [setFromUnitVectors], [r < Number.EPSILON], allows for rounding; without
    rounding it is [r <= 0].) *)
Module Exact.

Local Open Scope R_scope.

Record Vector3 := { x : R; y : R; z : R }.

Record Quaternion := { qx : R; qy : R; qz : R; qw : R }.

Definition add (a b : Vector3) : Vector3 :=
  {| x := x a + x b; y := y a + y b; z := z a + z b |}.

Definition sub (a b : Vector3) : Vector3 :=
  {| x := x a - x b; y := y a - y b; z := z a - z b |}.

Definition multiplyScalar (v : Vector3) (s : R) : Vector3 :=
  {| x := x v * s; y := y v * s; z := z v * s |}.

Definition divideScalar (v : Vector3) (s : R) : Vector3 :=
  multiplyScalar v (1 / s).

Definition dot (a b : Vector3) : R := x a * x b + y a * y b + z a * z b.

Definition cross (a b : Vector3) : Vector3 :=
  {| x := y a * z b - z a * y b;
     y := z a * x b - x a * z b;
     z := x a * y b - y a * x b |}.

Definition lengthSq (v : Vector3) : R := x v * x v + y v * y v + z v * z v.

Definition length (v : Vector3) : R := sqrt (lengthSq v).

(** [l || 1] *)
Definition or_1 (l : R) : R := if Req_dec_T l 0 then 1 else l.

(** [this.divideScalar(this.length() || 1)] *)
Definition normalize (v : Vector3) : Vector3 := divideScalar v (or_1 (length v)).

Definition distanceTo (a b : Vector3) : R :=
  let dx := x a - x b in
  let dy := y a - y b in
  let dz := z a - z b in
  sqrt (dx * dx + dy * dy + dz * dz).

Definition Quaternion_lengthSq (q : Quaternion) : R :=
  qx q * qx q + qy q * qy q + qz q * qz q + qw q * qw q.

Definition Quaternion_length (q : Quaternion) : R := sqrt (Quaternion_lengthSq q).

Definition Quaternion_normalize (q : Quaternion) : Quaternion :=
  let l := Quaternion_length q in
  if Req_dec_T l 0 then {| qx := 0; qy := 0; qz := 0; qw := 1 |}
  else
    let l := 1 / l in
    {| qx := qx q * l; qy := qy q * l; qz := qz q * l; qw := qw q * l |}.

Definition setFromUnitVectors (vFrom vTo : Vector3) : Quaternion :=
  let r := dot vFrom vTo + 1 in
  Quaternion_normalize
    (if Rle_dec r 0 then
       (* vFrom and vTo point in opposite directions *)
       if Rlt_dec (Rabs (z vFrom)) (Rabs (x vFrom)) then
         {| qx := - y vFrom; qy := x vFrom; qz := 0; qw := 0 |}
       else
         {| qx := 0; qy := - z vFrom; qz := y vFrom; qw := 0 |}
     else
       {| qx := y vFrom * z vTo - z vFrom * y vTo;
          qy := z vFrom * x vTo - x vFrom * z vTo;
          qz := x vFrom * y vTo - y vFrom * x vTo;
          qw := r |}).

Definition applyQuaternion (v : Vector3) (q : Quaternion) : Vector3 :=
  (* t = 2 * cross(q.xyz, v) *)
  let tx := 2 * (qy q * z v - qz q * y v) in
  let ty := 2 * (qz q * x v - qx q * z v) in
  let tz := 2 * (qx q * y v - qy q * x v) in
  (* v + q.w * t + cross(q.xyz, t) *)
  {| x := x v + qw q * tx + qy q * tz - qz q * ty;
     y := y v + qw q * ty + qz q * tx - qx q * tz;
     z := z v + qw q * tz + qx q * ty - qy q * tx |}.

(** A perspective camera at [position] that looks at [target]
    ([camera.lookAt(target)]), with the tangent of half its vertical field
    of view, its aspect ratio and its near and far planes. *)
Record Camera := {
  position : Vector3;
  target : Vector3;
  tan_half_fov : R;
  aspect : R;
  near : R;
  far : R
}.

(** [Object3D.DEFAULT_UP] *)
Definition up : Vector3 := {| x := 0; y := 1; z := 0 |}.

(** The axes of the camera in the scene: where it looks, its right and its
    up. *)
Definition forward (c : Camera) : Vector3 := normalize (sub (target c) (position c)).

Definition right (c : Camera) : Vector3 := normalize (cross (forward c) up).

Definition upward (c : Camera) : Vector3 := cross (right c) (forward c).

(** The distance in front of the camera that the depth [ndc_z] of the
    normalized device coordinates stands for: [near] at -1, [far] at 1. *)
Definition depth (c : Camera) (ndc_z : R) : R :=
  2 * near c * far c / (far c + near c - ndc_z * (far c - near c)).

(** [v.unproject(camera)]: from normalized device coordinates to the
    scene, by the inverse of the camera's projection and then the camera's
    place in the scene, written out with the axes of the camera. *)
Definition unproject (v : Vector3) (c : Camera) : Vector3 :=
  let d := depth c (z v) in
  add (position c)
    (add (multiplyScalar (forward c) d)
       (add (multiplyScalar (right c) (x v * d * tan_half_fov c * aspect c))
            (multiplyScalar (upward c) (y v * d * tan_half_fov c)))).

Definition three : Pointer.Three :=
  {| Pointer.Num := R;
     Pointer.Vec := Vector3;
     Pointer.Quat := Quaternion;
     Pointer.Camera := Camera;
     Pointer.literal := IZR;
     Pointer.half := 0.5;
     Pointer.plus := Rplus;
     Pointer.minus := Rminus;
     Pointer.times := Rmult;
     Pointer.divide := Rdiv;
     Pointer.negate := Ropp;
     Pointer.new_Vector3 := fun x y z => {| x := x; y := y; z := z |};
     Pointer.camera_position := position;
     Pointer.Vector3_unproject := unproject;
     Pointer.Vector3_add := add;
     Pointer.Vector3_sub := sub;
     Pointer.Vector3_multiplyScalar := multiplyScalar;
     Pointer.Vector3_normalize := normalize;
     Pointer.Vector3_length := length;
     Pointer.Vector3_distanceTo := distanceTo;
     Pointer.Vector3_applyQuaternion := applyQuaternion;
     Pointer.Quaternion_setFromUnitVectors := setFromUnitVectors |}.

(** The camera of [HeroCube]: [new PerspectiveCamera(38, aspect, 0.1, 100)],
    looking at the center of the cube from the direction of (4.2, 2.6, 6),
    where [frameToView] keeps it whatever the distance; here at one and a
    half times that vector, and in a window of 1280 by 720. *)
Definition hero_camera : Camera :=
  {| position := {| x := 6.3; y := 3.9; z := 9 |};
     target := {| x := 0; y := 0; z := 0 |};
     tan_half_fov := tan (19 * PI / 180);
     aspect := 1280 / 720;
     near := 0.1;
     far := 100 |}.

Definition hero_view : @Pointer.View three :=
  @Pointer.Build_View three hero_camera {| x := 0; y := 0; z := 0 |} 1280 720.

(** A camera on the z axis with a field of view of 90 degrees, in a square
    window. *)
Definition front_camera : Camera :=
  {| position := {| x := 0; y := 0; z := 5 |};
     target := {| x := 0; y := 0; z := 0 |};
     tan_half_fov := 1;
     aspect := 1;
     near := 0.1;
     far := 100 |}.

Definition front_view : @Pointer.View three :=
  @Pointer.Build_View three front_camera {| x := 0; y := 0; z := 0 |} 800 800.

End Exact.

(** * Properties of the cube *)

Module CubeFacts.
Import Cube.

Local Open Scope Z_scope.

Lemma UserData_eq (u v : UserData) :
  i u = i v -> j u = j v -> k u = k v -> u = v.
Proof. destruct u, v; simpl; congruence. Qed.

(** *** Re-parenting never touches the logical indices *)

Lemma attach_indices t n s : indices (attach t n s) = indices s.
Proof.
  unfold attach, indices.
  destruct (cubelets s !! n) as [m|] eqn:E; [|done]. simpl.
  rewrite list_fmap_insert. simpl.
  apply list_insert_id. by rewrite list_lookup_fmap, E.
Qed.

Lemma attach_all_indices t ns s :
  indices (fold_left (fun st n => attach t n st) ns s) = indices s.
Proof.
  revert s. induction ns as [|n ns IH]; intros s; simpl; [done|].
  by rewrite IH, attach_indices.
Qed.

Lemma userData_relabel a l d c :
  userData (relabel a l d c) = relabel_index a l d (userData c).
Proof.
  unfold relabel, relabel_index, in_layer, coord.
  destruct a; simpl; case (_ =? _); reflexivity.
Qed.

Lemma bake_indices a l d s :
  indices (bakeAndUpdateIndices a l d s) = relabel_index a l d <$> indices s.
Proof.
  rewrite <- (attach_all_indices Root (turn_children s) s).
  unfold bakeAndUpdateIndices, indices. simpl.
  rewrite <- !list_fmap_compose.
  apply list_fmap_ext. intros _ c _. simpl. apply userData_relabel.
Qed.

Lemma bake_lookup a l d s n c :
  cubelets s !! n = Some c ->
  exists c', cubelets (bakeAndUpdateIndices a l d s) !! n = Some c'
    /\ userData c' = relabel_index a l d (userData c).
Proof.
  intros Hc. pose proof (bake_indices a l d s) as Hb.
  remember (bakeAndUpdateIndices a l d s) as s' eqn:Es'. clear Es'.
  apply (f_equal (fun us => us !! n)) in Hb.
  unfold indices in Hb. rewrite !list_lookup_fmap, Hc in Hb.
  destruct (cubelets s' !! n) as [c'|]; simplify_eq/=. eauto.
Qed.

(** The two directions, as the numbers the callback passes. *)
Lemma number_of_Z_dir : number_of_Z 1 = 1%float /\ number_of_Z (-1) = (-1)%float.
Proof. split; reflexivity. Qed.

Lemma rot_quarter_turn a sgn u :
  sgn = 1 \/ sgn = -1 -> rot a (number_of_Z sgn) u = quarter_turn a sgn u.
Proof.
  intros [-> | ->]; destruct a; unfold rot, quarter_turn; simpl;
    apply UserData_eq; simpl; lia.
Qed.

(** C1. A call of [bakeAndUpdateIndices a l dir] with [dir] +1 or -1 keeps
    the array of cubelets in place and replaces the logical index of every
    cubelet whose coordinate along [a] is [l] by its image under the
    right-handed quarter turn about [a] in direction [dir]; the index of
    every other cubelet stays what it was.  For [a = x] and [dir = +1] the
    image of (i,j,k) is (i,-k,j). *)
Theorem bake_relabels_layer (a : Axis) (l sgn : Z) (s : Scene) :
  sgn = 1 \/ sgn = -1 ->
  length (cubelets (bakeAndUpdateIndices a l (number_of_Z sgn) s))
    = length (cubelets s)
  /\ (forall n c, cubelets s !! n = Some c ->
        exists c', cubelets (bakeAndUpdateIndices a l (number_of_Z sgn) s) !! n = Some c'
          /\ userData c' = if coord a (userData c) =? l
                           then quarter_turn a sgn (userData c)
                           else userData c)
  /\ (forall i0 j0 k0, quarter_turn AxisX 1 {| i := i0; j := j0; k := k0 |}
                       = {| i := i0; j := - k0; k := j0 |}).
Proof.
  intros Hs. split; [|split].
  - transitivity (length (indices (bakeAndUpdateIndices a l (number_of_Z sgn) s))).
    { unfold indices. by rewrite length_fmap. }
    rewrite bake_indices. unfold indices. by rewrite !length_fmap.
  - intros n c Hc.
    destruct (bake_lookup a l (number_of_Z sgn) s n c Hc) as (c' & Hc' & Hu).
    exists c'. split; [done|]. rewrite Hu.
    unfold relabel_index. case (_ =? _); [|done]. by apply rot_quarter_turn.
  - intros. unfold quarter_turn. apply UserData_eq; simpl; lia.
Qed.

Lemma bake_relabels_layer_witness :
  (1 = 1 \/ 1 = -1)
  /\ length (cubelets (bakeAndUpdateIndices AxisX 1 (number_of_Z 1) initial_scene))
     = length (cubelets initial_scene).
Proof.
  split; [by left|].
  apply (bake_relabels_layer AxisX 1 1 initial_scene). by left.
Defined.

(** *** Re-parenting keeps the scene graph consistent *)

Lemma remove_child_spec n l :
  NoDup l ->
  NoDup (remove_child n l) /\ (forall x, x ∈ remove_child n l <-> x ∈ l /\ x <> n).
Proof.
  induction l as [|m l IH]; intros Hnd; simpl.
  - split; [constructor|]. intros x. rewrite elem_of_nil. tauto.
  - apply NoDup_cons in Hnd as [Hm Hl]. destruct (IH Hl) as [IH1 IH2].
    destruct (Nat.eqb_spec n m) as [->|Hne].
    + split; [done|]. intros x. rewrite elem_of_cons.
      split; [|intros [[?|?] ?]; done].
      intros Hx. split; [by right|]. by intros ->.
    + split.
      * apply NoDup_cons. split; [|done]. rewrite IH2. tauto.
      * intros x. rewrite !elem_of_cons, IH2.
        split; [intros [->|[? ?]]|intros [[->|?] ?]]; auto.
Qed.

(** Where a mesh is and what it carries after one [attach]. *)
Lemma attach_lookup t n s c :
  cubelets s !! n = Some c ->
  cubelets (attach t n s) !! n
  = Some {| userData := userData c; parent := t;
            matrix := match t with TurnGroup => [Over (turnGroup s)] | Root => [] end
                      ++ match parent c with
                         | TurnGroup => [Times (turnGroup s)]
                         | Root => []
                         end ++ matrix c |}.
Proof.
  intros Hc. unfold attach. rewrite Hc. simpl.
  apply list_lookup_insert_eq. by eapply lookup_lt_Some.
Qed.

Lemma attach_lookup_ne t n s x : x <> n -> cubelets (attach t n s) !! x = cubelets s !! x.
Proof.
  intros Hne. unfold attach. destruct (cubelets s !! n); [|done]. simpl.
  by apply list_lookup_insert_ne.
Qed.

Lemma attach_turnGroup t n s : turnGroup (attach t n s) = turnGroup s.
Proof. unfold attach. by destruct (cubelets s !! n). Qed.

Lemma attach_children t n s :
  graph_ok s ->
  NoDup (turn_children (attach t n s))
  /\ (forall x, x ∈ turn_children (attach t n s) <->
        (x ∈ turn_children s /\ x <> n)
        \/ (x = n /\ t = TurnGroup /\ is_Some (cubelets s !! n))).
Proof.
  intros [Hnd Hin]. unfold attach.
  destruct (cubelets s !! n) as [c|] eqn:Hc; simpl.
  - assert (NoDup (match parent c with
                   | TurnGroup => remove_child n (turn_children s)
                   | Root => turn_children s end)
            /\ (forall x, x ∈ (match parent c with
                   | TurnGroup => remove_child n (turn_children s)
                   | Root => turn_children s end)
                  <-> x ∈ turn_children s /\ x <> n)) as [Hnd' Hin'].
    { destruct (parent c) eqn:Hp; [|by apply remove_child_spec].
      split; [done|]. intros x. split; [|tauto].
      intros Hx. split; [done|]. intros ->.
      apply Hin in Hx as (c' & Hc' & Hp'). congruence. }
    destruct t.
    + split; [done|]. intros x. rewrite Hin'. split; [tauto|].
      intros [?|(_ & ? & _)]; done.
    + split.
      * apply NoDup_app. split; [done|]. split; [|apply NoDup_singleton].
        intros x Hx%Hin' ->%list_elem_of_singleton. tauto.
      * intros x. rewrite elem_of_app, Hin', list_elem_of_singleton.
        split; [intros [?| ->]; eauto|]. intros [?|(? & _)]; eauto.
  - split; [done|]. intros x. split.
    + intros Hx. left. split; [done|]. intros ->.
      apply Hin in Hx as (c' & Hc' & _). congruence.
    + intros [[? _]|(_ & _ & [? ?])]; done.
Qed.

Lemma attach_graph_ok t n s : graph_ok s -> graph_ok (attach t n s).
Proof.
  intros Hok. destruct (attach_children t n s Hok) as [Hnd Hin].
  split; [done|]. intros x. rewrite Hin. destruct Hok as [_ Hs].
  destruct (decide (x = n)) as [->|Hne].
  - destruct (cubelets s !! n) as [c|] eqn:Hc.
    + rewrite (attach_lookup t n s c Hc). split.
      * intros [[_ ?]|(_ & -> & _)]; [done|]. eauto.
      * intros (c' & [= <-] & Hp). simpl in Hp. right. eauto.
    + unfold attach. rewrite Hc, Hc. split.
      * intros [[_ ?]|(_ & _ & [? ?])]; done.
      * intros (? & ? & _). done.
  - rewrite attach_lookup_ne by done. rewrite Hs. split; [|tauto].
    intros [[? _]|(? & _)]; done.
Qed.

Lemma initial_graph_ok : graph_ok initial_scene.
Proof.
  split; [constructor|]. intros n. split.
  - intros []%elem_of_nil.
  - intros (c & Hc & Hp).
    apply list_elem_of_lookup_2 in Hc. apply list_elem_of_In in Hc.
    simpl in Hc. repeat (destruct Hc as [<- | Hc]; [done|]). destruct Hc.
Qed.

(** *** [attachLayer] *)

Lemma in_layer_coord a l c : in_layer a l c = (coord a (userData c) =? l).
Proof. by destruct a. Qed.

Lemma root_only s n c :
  graph_ok s -> turn_children s = [] -> cubelets s !! n = Some c -> parent c = Root.
Proof.
  intros [_ Hin] Hnil Hc. destruct (parent c) eqn:Hp; [done|].
  assert (n ∈ turn_children s) as Hn by (apply Hin; eauto).
  rewrite Hnil in Hn. by apply elem_of_nil in Hn.
Qed.

(** The [while] loop ends with an empty turn group within [length] rounds. *)
Lemma detach_loop_spec fuel s :
  graph_ok s -> (length (turn_children s) <= fuel)%nat ->
  turn_children (detach_loop fuel s) = []
  /\ graph_ok (detach_loop fuel s)
  /\ indices (detach_loop fuel s) = indices s
  /\ turnGroup (detach_loop fuel s) = turnGroup s.
Proof.
  revert s. induction fuel as [|fuel IH]; intros s Hok Hlen; simpl.
  - destruct (turn_children s); [done|]. simpl in Hlen. lia.
  - destruct (turn_children s) as [|child rest] eqn:Htc; [done|].
    assert (exists c, cubelets s !! child = Some c /\ parent c = TurnGroup)
      as (c & Hc & Hp).
    { apply Hok. rewrite Htc. left. }
    assert (turn_children (attach Root child s) = rest) as Hrest.
    { unfold attach. rewrite Hc, Hp, Htc. simpl. by rewrite Nat.eqb_refl. }
    destruct (IH (attach Root child s)) as (H1 & H2 & H3 & H4).
    { by apply attach_graph_ok. }
    { rewrite Hrest. simpl in Hlen. lia. }
    rewrite H3, H4, attach_indices, attach_turnGroup. done.
Qed.

Lemma attach_matching_prefix a l s t :
  graph_ok s -> turn_children s = [] ->
  let st := fold_left (attach_if_in_layer a l) (seq 0 t) s in
  graph_ok st /\ indices st = indices s /\ turnGroup st = turnGroup s
  /\ (forall n c, cubelets st !! n = Some c ->
        (parent c = TurnGroup <-> (n < t)%nat /\ in_layer a l c = true)).
Proof.
  intros Hok Hnil. induction t as [|t IH]; cbv zeta in *.
  - simpl. split; [done|]. split; [done|]. split; [done|]. intros n c Hc. split.
    + intros Hp. by rewrite (root_only s n c Hok Hnil Hc) in Hp.
    + intros [? _]. lia.
  - destruct IH as (IHok & IHi & IHg & IHp).
    rewrite seq_S, fold_left_app. simpl.
    set (st := fold_left (attach_if_in_layer a l) (seq 0 t) s) in *.
    destruct (cubelets st !! t) as [c|] eqn:Hc.
    + destruct (in_layer a l c) eqn:Hl.
      * assert (attach_if_in_layer a l st t = attach TurnGroup t st) as ->
          by (unfold attach_if_in_layer; by rewrite Hc, Hl).
        split; [by apply attach_graph_ok|]. split; [by rewrite attach_indices|].
        split; [by rewrite attach_turnGroup|].
        intros n c' Hc'. destruct (decide (n = t)) as [->|Hne].
        -- rewrite (attach_lookup _ _ _ _ Hc) in Hc'. injection Hc' as <-.
           simpl. rewrite in_layer_coord in *. simpl. split; [|done].
           intros _. split; [lia|done].
        -- rewrite attach_lookup_ne in Hc' by done.
           rewrite (IHp n c' Hc'). split; intros [? ?]; split; try done; lia.
      * assert (attach_if_in_layer a l st t = st) as ->
          by (unfold attach_if_in_layer; by rewrite Hc, Hl).
        split; [done|]. split; [done|]. split; [done|].
        intros n c' Hc'. rewrite (IHp n c' Hc'). split; intros [? ?].
        -- split; [lia|done].
        -- split; [|done]. destruct (decide (n = t)) as [->|]; [congruence|lia].
    + assert (attach_if_in_layer a l st t = st) as ->
        by (unfold attach_if_in_layer; by rewrite Hc).
      split; [done|]. split; [done|]. split; [done|].
      intros n c' Hc'. rewrite (IHp n c' Hc'). split; intros [? ?].
      * split; [lia|done].
      * split; [|done]. destruct (decide (n = t)) as [->|]; [congruence|lia].
Qed.

Lemma attachLayer_spec a l s :
  graph_ok s ->
  graph_ok (attachLayer a l s)
  /\ indices (attachLayer a l s) = indices s
  /\ turnGroup (attachLayer a l s) = {| position := zero3; rotation := zero3 |}
  /\ (forall n c, cubelets (attachLayer a l s) !! n = Some c ->
        (parent c = TurnGroup <-> coord a (userData c) = l)).
Proof.
  intros Hok. unfold attachLayer.
  set (s0 := set_turnGroup _ s).
  assert (graph_ok s0) as Hok0 by done.
  destruct (detach_loop_spec (length (turn_children s0)) s0 Hok0 (le_n _))
    as (Hnil & Hok1 & Hi1 & Hg1).
  set (s1 := detach_loop _ s0) in *.
  destruct (attach_matching_prefix a l s1 (length (cubelets s1)) Hok1 Hnil)
    as (Hok2 & Hi2 & Hg2 & Hp2).
  fold (attach_matching a l s1) in *.
  split; [done|]. split; [by rewrite Hi2, Hi1|]. split; [by rewrite Hg2, Hg1|].
  intros n c Hc. rewrite (Hp2 n c Hc), in_layer_coord, Z.eqb_eq.
  split; [tauto|]. intros Hl. split; [|done].
  apply lookup_lt_Some in Hc.
  assert (length (indices (attach_matching a l s1)) = length (indices s1)) as Hlen
    by (by rewrite Hi2).
  unfold indices in Hlen. rewrite !length_fmap in Hlen. lia.
Qed.

(** Counting the positions of a list that pass a test is counting the
    elements that pass it. *)
Lemma filter_ext_elem {A} (P Q : A -> Prop)
    `{!forall x, Decision (P x), !forall x, Decision (Q x)} (l : list A) :
  (forall x, x ∈ l -> (P x <-> Q x)) -> filter P l = filter Q l.
Proof.
  induction l as [|x l IH]; intros Hext; [done|].
  rewrite !filter_cons.
  rewrite IH by (intros y Hy; apply Hext; by right).
  apply decide_ext, Hext. left.
Qed.

Lemma length_filter_positions {A} (t : A -> bool) (L : list A) :
  length (filter (fun n => (t <$> L !! n) = Some true) (seq 0 (length L)))
  = length (filter (fun x => t x = true) L).
Proof.
  induction L as [|x L IH] using rev_ind; [done|].
  rewrite length_app. simpl. rewrite Nat.add_1_r, seq_S. simpl.
  rewrite !filter_app, !length_app. f_equal.
  - rewrite <- IH. f_equal. apply filter_ext_elem.
    intros n Hn%elem_of_seq. by rewrite lookup_app_l by lia.
  - rewrite !filter_cons, !filter_nil.
    rewrite (list_lookup_middle L [] x (length L) eq_refl). simpl.
    destruct (t x); by repeat case_decide.
Qed.

Lemma layer_of_grid_has_9 a l :
  l = -1 \/ l = 0 \/ l = 1 ->
  length (filter (fun u => (coord a u =? l) = true) grid) = 9%nat.
Proof. intros [-> | [-> | ->]]; destruct a; reflexivity. Qed.

(** C7. In a consistent scene graph, after [attachLayer a l] the children of
    the turn group are, each once, exactly the cubelets whose stored
    coordinate along [a] is [l]; every other cubelet, also one that was in
    the turn group before, has the root as its parent; no index changes.
    When the indices are a permutation of the grid and [l] is -1, 0 or 1,
    that is 9 cubelets. *)
Theorem attachLayer_attaches_layer (a : Axis) (l : Z) (s : Scene) :
  graph_ok s ->
  NoDup (turn_children (attachLayer a l s))
  /\ (forall n, n ∈ turn_children (attachLayer a l s) <->
        exists c, cubelets s !! n = Some c /\ coord a (userData c) = l)
  /\ (forall n c', cubelets (attachLayer a l s) !! n = Some c' ->
        parent c' = if coord a (userData c') =? l then TurnGroup else Root)
  /\ indices (attachLayer a l s) = indices s
  /\ (indices_ok s -> l = -1 \/ l = 0 \/ l = 1 ->
      length (turn_children (attachLayer a l s)) = 9%nat).
Proof.
  intros Hok. destruct (attachLayer_spec a l s Hok) as ([Hnd Hin] & Hi & _ & Hp).
  set (s' := attachLayer a l s) in *.
  assert (forall n, n ∈ turn_children s' <->
            (((fun u => coord a u =? l) <$> indices s !! n) = Some true)) as Hmem.
  { intros n. rewrite Hin, <- Hi. unfold indices. rewrite list_lookup_fmap.
    destruct (cubelets s' !! n) as [c'|] eqn:Hc'; simpl.
    - split.
      + intros (? & [= <-] & Hpc). apply (Hp n c' Hc') in Hpc.
        f_equal. by apply Z.eqb_eq.
      + intros [= Hl%Z.eqb_eq]. exists c'. split; [done|]. by apply (Hp n c' Hc').
    - split; [intros (? & ? & _)|]; done. }
  split; [done|]. split; [|split; [|split; [done|]]].
  - intros n. rewrite Hmem. unfold indices. rewrite list_lookup_fmap.
    destruct (cubelets s !! n) as [c|]; simpl.
    + split.
      * intros [= Hl%Z.eqb_eq]. eauto.
      * intros (? & [= <-] & Hl). f_equal. by apply Z.eqb_eq.
    + split; [|intros (? & ? & _)]; done.
  - intros n c' Hc'. destruct (Z.eqb_spec (coord a (userData c')) l) as [Hl|Hl].
    + by eapply Hp.
    + destruct (parent c') eqn:Hpc; [done|]. eapply Hp in Hpc; done.
  - intros Hperm Hl. unfold indices_ok in Hperm.
    rewrite <- (layer_of_grid_has_9 a l Hl).
    rewrite <- Hperm, <- length_filter_positions.
    apply Permutation_length, NoDup_Permutation; [done| |].
    + apply NoDup_filter, NoDup_seq.
    + intros n. rewrite Hmem, list_elem_of_filter, elem_of_seq. split; [|tauto].
      intros Hn. split; [done|]. split; [lia|]. simpl.
      destruct (indices s !! n) eqn:E; [|done]. by eapply lookup_lt_Some.
Qed.

Lemma attachLayer_attaches_layer_witness :
  graph_ok initial_scene
  /\ length (turn_children (attachLayer AxisY 1 initial_scene)) = 9%nat.
Proof.
  split; [apply initial_graph_ok|].
  apply (attachLayer_attaches_layer AxisY 1 initial_scene initial_graph_ok).
  - unfold indices_ok. by vm_compute.
  - right. by right.
Defined.

(** *** [bakeAndUpdateIndices] on the scene graph *)

Lemma attach_all_Root_spec ns s :
  graph_ok s -> NoDup ns -> (forall n, n ∈ ns -> n ∈ turn_children s) ->
  let s' := fold_left (fun st n => attach Root n st) ns s in
  graph_ok s'
  /\ turnGroup s' = turnGroup s
  /\ (forall x, x ∈ turn_children s' <-> x ∈ turn_children s /\ x ∉ ns)
  /\ (forall n c, cubelets s !! n = Some c -> n ∈ ns ->
        cubelets s' !! n = Some {| userData := userData c; parent := Root;
                                   matrix := Times (turnGroup s) :: matrix c |})
  /\ (forall n, n ∉ ns -> cubelets s' !! n = cubelets s !! n).
Proof.
  revert s. induction ns as [|n0 ns IH]; intros s Hok Hnd Hsub; simpl.
  - split; [done|]. split; [done|]. split; [|split; [|done]].
    + intros x. rewrite elem_of_nil. tauto.
    + intros n c _ []%elem_of_nil.
  - apply NoDup_cons in Hnd as [Hn0 Hnd].
    assert (exists c0, cubelets s !! n0 = Some c0 /\ parent c0 = TurnGroup)
      as (c0 & Hc0 & Hp0) by (apply Hok, Hsub; left).
    destruct (attach_children Root n0 s Hok) as [_ Hin1].
    destruct (IH (attach Root n0 s)) as (H1 & H2 & H3 & H4 & H5);
      [by apply attach_graph_ok|done| |].
    { intros n Hn. apply Hin1. left. split; [apply Hsub; by right|].
      intros ->. done. }
    split; [done|]. split; [by rewrite H2, attach_turnGroup|].
    split; [|split].
    + intros x. rewrite H3, Hin1, elem_of_cons. split.
      * intros [[[? ?]|(_ & ? & _)] ?]; [|done]. split; [done|]. tauto.
      * intros [? Hx]. split; [left; split; [done|]|]; intros ?; apply Hx; auto.
    + intros n c Hc [->|Hn]%elem_of_cons.
      * rewrite H5 by done. rewrite (attach_lookup Root n0 s c Hc).
        rewrite Hc in Hc0. injection Hc0 as <-. by rewrite Hp0.
      * assert (n <> n0) as Hne by (by intros ->).
        rewrite attach_turnGroup in H4. apply H4; [|done].
        by rewrite attach_lookup_ne.
    + intros n Hn. rewrite not_elem_of_cons in Hn. destruct Hn as [Hne Hn].
      rewrite H5 by done. by apply attach_lookup_ne.
Qed.

Lemma bake_spec a l d s :
  graph_ok s ->
  let s' := bakeAndUpdateIndices a l d s in
  graph_ok s'
  /\ turn_children s' = []
  /\ turnGroup s' = {| position := position (turnGroup s); rotation := zero3 |}
  /\ (forall n c, cubelets s !! n = Some c ->
        cubelets s' !! n
        = Some {| userData := relabel_index a l d (userData c);
                  parent := Root;
                  matrix := match parent c with
                            | TurnGroup => [Times (turnGroup s)]
                            | Root => []
                            end ++ matrix c |}).
Proof.
  intros Hok.
  destruct (attach_all_Root_spec (turn_children s) s Hok) as (H1 & H2 & H3 & H4 & H5);
    [apply Hok|done|].
  unfold bakeAndUpdateIndices. cbv zeta.
  set (s1 := fold_left _ (turn_children s) s) in *.
  assert (turn_children s1 = []) as Hnil.
  { apply elem_of_nil_inv. intros x Hx%H3. tauto. }
  split; [|split; [done|split]].
  - split; simpl; [rewrite Hnil; constructor|].
    intros n. rewrite Hnil, elem_of_nil. split; [done|].
    intros (c & Hc & Hp). rewrite list_lookup_fmap in Hc.
    destruct (cubelets s1 !! n) as [c1|] eqn:Hc1; simplify_eq/=.
    assert (parent c1 = Root) as Hr by (by eapply root_only).
    unfold relabel in Hp. destruct (in_layer a l c1); simpl in Hp; congruence.
  - simpl. by rewrite H2.
  - intros n c Hc. simpl. rewrite list_lookup_fmap.
    assert (cubelets s1 !! n
            = Some {| userData := userData c; parent := Root;
                      matrix := match parent c with
                                | TurnGroup => [Times (turnGroup s)]
                                | Root => []
                                end ++ matrix c |}) as ->.
    { destruct (parent c) eqn:Hp.
      - rewrite H5, Hc; [by destruct c; simplify_eq/=|].
        intros (c' & Hc' & Hp')%Hok. congruence.
      - apply H4; [done|]. apply Hok. eauto. }
    simpl. f_equal. unfold relabel, relabel_index. rewrite in_layer_coord. simpl.
    by destruct (_ =? _).
Qed.

(** *** The index triples stay a permutation of the grid *)

Lemma elem_of_grid u : u ∈ grid <-> in_range u.
Proof.
  unfold in_range. split.
  - intros H. apply list_elem_of_In in H. simpl in H.
    repeat (destruct H as [<- | H]; [simpl; lia|]). destruct H.
  - intros (Hi & Hj & Hk). destruct u as [a b c]; simpl in *.
    assert (a = -1 \/ a = 0 \/ a = 1) as Ha by lia.
    assert (b = -1 \/ b = 0 \/ b = 1) as Hb by lia.
    assert (c = -1 \/ c = 0 \/ c = 1) as Hc by lia.
    apply list_elem_of_In.
    destruct Ha as [-> | [-> | ->]], Hb as [-> | [-> | ->]], Hc as [-> | [-> | ->]];
      simpl; tauto.
Qed.

Lemma NoDup_grid : NoDup grid.
Proof. refine (bool_decide_unpack (NoDup grid) _). by vm_compute. Qed.

Lemma coord_rot a d u : coord a (rot a d u) = coord a u.
Proof. by destruct a. Qed.

Lemma coord_relabel_index a l d u : coord a (relabel_index a l d u) = coord a u.
Proof. unfold relabel_index. case (_ =? _); [apply coord_rot | done]. Qed.

Lemma rot_inj a d u v : rot a d u = rot a d v -> u = v.
Proof.
  unfold rot. destruct u, v, a; simpl; case (PrimFloat.ltb _ _);
    intros [= ? ? ?]; f_equal; lia.
Qed.

#[local] Instance relabel_index_inj a l d : Inj (=) (=) (relabel_index a l d).
Proof.
  intros u v H.
  pose proof (f_equal (coord a) H) as Hc. rewrite !coord_relabel_index in Hc.
  unfold relabel_index in H. rewrite Hc in H.
  destruct (coord a v =? l); [by eapply rot_inj | done].
Qed.

Lemma rot_in_range a d u : in_range u -> in_range (rot a d u).
Proof.
  unfold in_range, rot. destruct a; simpl; case (PrimFloat.ltb _ _); lia.
Qed.

Lemma relabel_index_in_range a l d u : in_range u -> in_range (relabel_index a l d u).
Proof. unfold relabel_index. case (_ =? _); [apply rot_in_range | done]. Qed.

Lemma relabel_grid a l d : relabel_index a l d <$> grid ≡ₚ grid.
Proof.
  apply submseteq_length_Permutation; [|by rewrite length_fmap].
  apply NoDup_submseteq.
  - apply (NoDup_fmap_2 _), NoDup_grid.
  - intros u (v & -> & Hv)%list_elem_of_fmap.
    apply elem_of_grid, relabel_index_in_range, elem_of_grid, Hv.
Qed.

Lemma initial_indices_ok : indices_ok initial_scene.
Proof. unfold indices_ok. by vm_compute. Qed.

Lemma bake_indices_ok a l d s :
  indices_ok s -> indices_ok (bakeAndUpdateIndices a l d s).
Proof.
  unfold indices_ok. intros H. rewrite bake_indices, H. apply relabel_grid.
Qed.

Lemma bake_turns_indices_ok turns s :
  indices_ok s -> indices_ok (fold_left bake_turn turns s).
Proof.
  revert s. induction turns as [|[[a l] d] turns IH]; intros s H; simpl; [done|].
  by apply IH, bake_indices_ok.
Qed.

(** *** The closure stays consistent along every run *)

Lemma addAxisRotation_on_axis p a v delta :
  addAxisRotation {| position := p; rotation := on_axis a v |} a delta
  = {| position := p; rotation := on_axis a (v + delta)%float |}.
Proof. by destruct a. Qed.

Lemma setAxisRotation_on_axis p a v value :
  setAxisRotation {| position := p; rotation := on_axis a v |} a value
  = {| position := p; rotation := on_axis a value |}.
Proof. by destruct a. Qed.

Lemma on_axis_0 a : on_axis a 0%float = zero3.
Proof. by destruct a. Qed.

#[local] Arguments bakeAndUpdateIndices : simpl never.
#[local] Arguments attachLayer : simpl never.

Section Run.

Context {Quaternion : Type}.
Variable slerp : Quaternion -> Quaternion -> number -> Quaternion.
Implicit Types st : @Anim Quaternion.

Lemma initial_anim_ok (q : Quaternion) : anim_ok (initial_anim q).
Proof.
  split; [apply initial_graph_ok|]. split; [apply initial_indices_ok|].
  split; [done|]. split; [by left|]. done.
Qed.

Lemma orient_and_wait_ok dt st : anim_ok st -> anim_ok (orient_and_wait slerp dt st).
Proof. done. Qed.

Lemma set_target_ok q st : anim_ok st -> anim_ok (set_target q st).
Proof. done. Qed.

Lemma start_turn_ok rnd st : anim_ok st -> anim_ok (start_turn rnd st).
Proof.
  intros Hst. unfold start_turn.
  destruct (negb (turning st) && _); [|done].
  destruct Hst as (Hg & Hi & _ & _ & _).
  set (a := pick axes (random_axis rnd) AxisX).
  set (l := pick [-1; 0; 1] (random_layer rnd) 0).
  destruct (attachLayer_spec a l (scene st) Hg) as (Hg' & Hi' & Ht' & Hp').
  unfold anim_ok. simpl. fold a l.
  split; [done|]. split; [unfold indices_ok; by rewrite Hi'|].
  split; [by rewrite Ht'|].
  split; [destruct (PrimFloat.ltb _ _); auto|].
  split; [exists 0%float; by rewrite Ht', on_axis_0|].
  intros n. destruct Hg' as [_ ->]. split.
  - intros (c & Hc & Hp). exists c. split; [done|]. by apply (Hp' n c Hc).
  - intros (c & Hc & Hl). exists c. split; [done|]. by apply (Hp' n c Hc).
Qed.

Lemma advance_turn_ok dt rnd st : anim_ok st -> anim_ok (advance_turn dt rnd st).
Proof.
  intros Hst. unfold advance_turn.
  destruct (turning st) eqn:Hturning; [|done].
  destruct Hst as (Hg & Hi & Hpos & Hdir & Hrot). rewrite Hturning in Hrot.
  destruct Hrot as [[v Hv] Hmem].
  destruct (turnGroup (scene st)) as [p r] eqn:Htg. simpl in Hpos, Hv. subst p r.
  rewrite addAxisRotation_on_axis.
  destruct (turn_done dt st).
  - unfold anim_ok. cbn.
    rewrite setAxisRotation_on_axis.
    match goal with |- context [bakeAndUpdateIndices ?a ?l ?d ?s] =>
      destruct (bake_spec a l d s) as (Hg' & Hnil & Ht' & _); [done|];
      pose proof (bake_indices_ok a l d s Hi) as Hi';
      set (s' := bakeAndUpdateIndices a l d s) in *
    end.
    rewrite Ht'. cbn.
    split; [done|]. split; [done|]. split; [done|]. split; [done|].
    split; [done|]. by destruct (turnAxis st).
  - unfold anim_ok. cbn.
    split; [done|]. split; [done|]. split; [done|]. split; [done|].
    split; [eauto|done].
Qed.

Lemma at_turn_test_ok dt rnd st : anim_ok st -> anim_ok (at_turn_test slerp dt rnd st).
Proof. intros H. by apply start_turn_ok, orient_and_wait_ok. Qed.

Lemma frame_ok dt rnd st : anim_ok st -> anim_ok (frame slerp dt rnd st).
Proof. intros H. by apply advance_turn_ok, at_turn_test_ok. Qed.

Lemma run_ok (q : Quaternion) es : anim_ok (run slerp q es).
Proof.
  unfold run. generalize (initial_anim_ok q). generalize (initial_anim q).
  induction es as [|e es IH]; intros st Hst; simpl; [done|].
  apply IH. destruct e; simpl; [by apply frame_ok | by apply set_target_ok].
Qed.

(** What the finishing branch of the callback leaves behind. *)
Lemma finish_turn_spec dt rnd st :
  anim_ok st -> turning st = true -> turn_done dt st = true ->
  turning (advance_turn dt rnd st) = false
  /\ turnGroup (scene (advance_turn dt rnd st))
     = {| position := zero3; rotation := zero3 |}
  /\ turn_children (scene (advance_turn dt rnd st)) = []
  /\ (forall n c, cubelets (scene st) !! n = Some c ->
        cubelets (scene (advance_turn dt rnd st)) !! n
        = Some {| userData := relabel_index (turnAxis st) (layer st) (dir st)
                                (userData c);
                  parent := Root;
                  matrix := (if coord (turnAxis st) (userData c) =? layer st
                             then [Times (snapped (turnAxis st) (dir st))]
                             else []) ++ matrix c |}).
Proof.
  intros (Hg & Hi & Hpos & Hdir & Hrot) Hturning Hdone.
  rewrite Hturning in Hrot. destruct Hrot as [[v Hv] Hmem].
  unfold advance_turn. rewrite Hturning, Hdone.
  destruct (turnGroup (scene st)) as [p r] eqn:Htg. simpl in Hpos, Hv. subst p r.
  rewrite addAxisRotation_on_axis. cbn.
  rewrite setAxisRotation_on_axis. fold (snapped (turnAxis st) (dir st)).
  match goal with |- context [bakeAndUpdateIndices ?a ?l ?d ?s] =>
    destruct (bake_spec a l d s) as (_ & Hnil & Ht' & Hc'); [done|];
    set (s' := bakeAndUpdateIndices a l d s) in *
  end.
  cbn in Ht', Hc'. fold (snapped (turnAxis st) (dir st)) in Hc'.
  split; [done|]. split; [rewrite Ht'; cbn; by destruct (turnAxis st)|].
  split; [done|].
  intros n c Hc. rewrite (Hc' n c Hc). do 2 f_equal.
  destruct (Z.eqb_spec (coord (turnAxis st) (userData c)) (layer st)) as [Hl|Hl].
  - assert (n ∈ turn_children (scene st)) as Hn by (apply Hmem; eauto).
    apply Hg in Hn as (c0 & Hc0 & Hp0). rewrite Hc in Hc0. injection Hc0 as <-.
    by rewrite Hp0.
  - destruct (parent c) eqn:Hp; [done|]. exfalso. apply Hl.
    assert (n ∈ turn_children (scene st)) as Hn by (apply Hg; eauto).
    apply Hmem in Hn as (c0 & Hc0 & Hl0). by rewrite Hc in Hc0; injection Hc0 as <-.
Qed.

(** C6. Take any run of the closure and the next frame.  If at the test
    [if (turning)] a turn is on (started earlier or in this frame) and the
    accumulated angle reaches pi/2 - 1e-3, then the frame ends with the
    turning flag cleared, the turn group empty and its rotation exactly
    (0,0,0); the direction is +1 or -1; and every cubelet of the chosen layer
    is back under the root with its matrix multiplied by the turn group's
    transform taken after the snap, a rotation about the turn axis alone by
    exactly (pi/2)*dir, while the matrix of every other cubelet is as it
    was. *)
Theorem finished_turn_is_quarter_turn (q : Quaternion) (es : list Input)
    (dt : number) (rnd : Random) :
  turning (at_turn_test slerp dt rnd (run slerp q es)) = true ->
  turn_done dt (at_turn_test slerp dt rnd (run slerp q es)) = true ->
  turning (frame slerp dt rnd (run slerp q es)) = false
  /\ turn_children (scene (frame slerp dt rnd (run slerp q es))) = []
  /\ rotation (turnGroup (scene (frame slerp dt rnd (run slerp q es)))) = zero3
  /\ (dir (at_turn_test slerp dt rnd (run slerp q es)) = 1%float
      \/ dir (at_turn_test slerp dt rnd (run slerp q es)) = (-1)%float)
  /\ (forall n c,
        cubelets (scene (at_turn_test slerp dt rnd (run slerp q es))) !! n = Some c ->
        exists c',
          cubelets (scene (frame slerp dt rnd (run slerp q es))) !! n = Some c'
          /\ parent c' = Root
          /\ matrix c'
             = (if coord (turnAxis (at_turn_test slerp dt rnd (run slerp q es)))
                         (userData c)
                   =? layer (at_turn_test slerp dt rnd (run slerp q es))
                then [Times (snapped
                        (turnAxis (at_turn_test slerp dt rnd (run slerp q es)))
                        (dir (at_turn_test slerp dt rnd (run slerp q es))))]
                else []) ++ matrix c).
Proof.
  intros Hturning Hdone.
  pose proof (at_turn_test_ok dt rnd _ (run_ok q es)) as Hok.
  unfold frame. set (st1 := at_turn_test slerp dt rnd (run slerp q es)) in *.
  destruct (finish_turn_spec dt rnd st1 Hok Hturning Hdone) as (H1 & H2 & H3 & H4).
  split; [done|]. split; [done|]. split; [by rewrite H2|].
  split; [apply Hok|].
  intros n c Hc. eexists. split; [by apply H4|]. done.
Qed.

End Run.

(** C2. The index triples stored in the cubelets are the 27 triples of
    {-1,0,1}^3, each exactly once (a permutation of the duplicate-free
    [grid]): this holds after construction, every call of
    [bakeAndUpdateIndices] preserves it whatever the axis, the layer and the
    direction, and so it holds after every sequence of turns, and in every
    state the frame callback can reach. *)
Theorem indices_permutation_of_grid :
  NoDup grid
  /\ indices_ok initial_scene
  /\ (forall a l d s, indices_ok s -> indices_ok (bakeAndUpdateIndices a l d s))
  /\ (forall turns, indices_ok (fold_left bake_turn turns initial_scene))
  /\ (forall (Quaternion : Type) (slerp : Quaternion -> Quaternion -> number -> Quaternion)
             (q : Quaternion) (es : list Input),
        indices_ok (scene (run slerp q es))).
Proof.
  split; [apply NoDup_grid|]. split; [apply initial_indices_ok|].
  split; [intros; by apply bake_indices_ok|].
  split; [intros turns; apply bake_turns_indices_ok, initial_indices_ok|].
  intros Q slerp q es. apply (run_ok slerp q es).
Qed.

Lemma indices_permutation_of_grid_witness :
  indices_ok initial_scene
  /\ indices_ok (bakeAndUpdateIndices AxisZ (-1) (-1)%float initial_scene).
Proof.
  split; [apply initial_indices_ok|].
  apply (proj1 (proj2 (proj2 indices_permutation_of_grid))), initial_indices_ok.
Defined.

(** A frame of two seconds from the initial closure starts a turn and
    finishes it at once. *)
Lemma finished_turn_is_quarter_turn_witness :
  turning (frame (fun _ _ _ => tt) 2%float
             {| random_axis := 0.5; random_layer := 0.9;
                random_dir := 0.25; random_pause := 0.5 |}%float
             (run (fun _ _ _ => tt) tt [])) = false.
Proof.
  apply (finished_turn_is_quarter_turn (fun _ _ _ => tt) tt [] 2%float
           {| random_axis := 0.5; random_layer := 0.9;
              random_dir := 0.25; random_pause := 0.5 |}%float);
    by vm_compute.
Defined.

(** * Further properties of the cube *)

(** *** Composing turns of the logical indices *)

Lemma relabel_index_in a l d u : coord a u = l -> relabel_index a l d u = rot a d u.
Proof. intros H. unfold relabel_index. by rewrite (proj2 (Z.eqb_eq _ _) H). Qed.

Lemma relabel_index_out a l d u : coord a u <> l -> relabel_index a l d u = u.
Proof. intros H. unfold relabel_index. by rewrite (proj2 (Z.eqb_neq _ _) H). Qed.

Lemma rot_undo a d1 d2 u :
  PrimFloat.ltb 0 d1 = negb (PrimFloat.ltb 0 d2) -> rot a d2 (rot a d1 u) = u.
Proof.
  intros Hd. unfold rot. rewrite Hd.
  destruct a, (PrimFloat.ltb 0 d2); apply UserData_eq; simpl; lia.
Qed.

Lemma rot_four a d u : rot a d (rot a d (rot a d (rot a d u))) = u.
Proof.
  unfold rot. destruct a, (PrimFloat.ltb 0 d); apply UserData_eq; simpl; lia.
Qed.

Lemma rot_comm a d1 d2 u : rot a d1 (rot a d2 u) = rot a d2 (rot a d1 u).
Proof.
  unfold rot.
  destruct a, (PrimFloat.ltb 0 d1), (PrimFloat.ltb 0 d2); apply UserData_eq; simpl; lia.
Qed.

Lemma relabel_index_undo a l d1 d2 u :
  PrimFloat.ltb 0 d1 = negb (PrimFloat.ltb 0 d2) ->
  relabel_index a l d2 (relabel_index a l d1 u) = u.
Proof.
  intros Hd. destruct (decide (coord a u = l)) as [Hl|Hl].
  - rewrite (relabel_index_in a l d1 u Hl).
    rewrite relabel_index_in by (by rewrite coord_rot). by apply rot_undo.
  - by rewrite !(relabel_index_out a l _ u Hl).
Qed.

Lemma relabel_index_four a l d u :
  relabel_index a l d (relabel_index a l d (relabel_index a l d (relabel_index a l d u)))
  = u.
Proof.
  destruct (decide (coord a u = l)) as [Hl|Hl].
  - rewrite (relabel_index_in a l d u Hl).
    rewrite (relabel_index_in a l d (rot a d u)) by (by rewrite !coord_rot).
    rewrite (relabel_index_in a l d (rot a d (rot a d u))) by (by rewrite !coord_rot).
    rewrite (relabel_index_in a l d (rot a d (rot a d (rot a d u))))
      by (by rewrite !coord_rot).
    apply rot_four.
  - by rewrite !(relabel_index_out a l _ u Hl).
Qed.

Lemma relabel_index_comm a l1 d1 l2 d2 u :
  relabel_index a l1 d1 (relabel_index a l2 d2 u)
  = relabel_index a l2 d2 (relabel_index a l1 d1 u).
Proof.
  destruct (decide (coord a u = l1)) as [H1|H1], (decide (coord a u = l2)) as [H2|H2].
  - rewrite (relabel_index_in a l2 d2 u H2), (relabel_index_in a l1 d1 u H1).
    rewrite (relabel_index_in a l1 d1 (rot a d2 u)) by (by rewrite coord_rot).
    rewrite (relabel_index_in a l2 d2 (rot a d1 u)) by (by rewrite coord_rot).
    apply rot_comm.
  - rewrite (relabel_index_out a l2 d2 u H2), (relabel_index_in a l1 d1 u H1).
    by rewrite relabel_index_out by (by rewrite coord_rot).
  - rewrite (relabel_index_out a l1 d1 u H1), (relabel_index_in a l2 d2 u H2).
    by rewrite relabel_index_out by (by rewrite coord_rot).
  - by rewrite (relabel_index_out a l2 _ u H2), (relabel_index_out a l1 _ u H1),
      (relabel_index_out a l2 _ u H2).
Qed.

(** X1. A quarter turn of a layer followed by the quarter turn of the same
    layer in the other direction gives every cubelet its index back. *)
Theorem opposite_turn_restores_indices (a : Axis) (l : Z) (d1 d2 : number) (s : Scene) :
  PrimFloat.ltb 0 d1 = negb (PrimFloat.ltb 0 d2) ->
  indices (bakeAndUpdateIndices a l d2 (bakeAndUpdateIndices a l d1 s)) = indices s.
Proof.
  intros Hd. rewrite !bake_indices, <- list_fmap_compose.
  rewrite <- (list_fmap_id (indices s)) at 2.
  apply list_fmap_ext. intros _ u _. simpl. by apply relabel_index_undo.
Qed.

Lemma opposite_turn_restores_indices_witness :
  indices (bakeAndUpdateIndices AxisX 1 (-1)%float
             (bakeAndUpdateIndices AxisX 1 1%float initial_scene))
  = indices initial_scene.
Proof. by apply (opposite_turn_restores_indices AxisX 1 1%float (-1)%float). Defined.

(** X2. Four quarter turns of one layer in one direction give every cubelet
    its index back. *)
Theorem four_turns_restore_indices (a : Axis) (l : Z) (d : number) (s : Scene) :
  indices (bakeAndUpdateIndices a l d (bakeAndUpdateIndices a l d
            (bakeAndUpdateIndices a l d (bakeAndUpdateIndices a l d s))))
  = indices s.
Proof.
  rewrite !bake_indices, <- !list_fmap_compose.
  rewrite <- (list_fmap_id (indices s)) at 2.
  apply list_fmap_ext. intros _ u _. simpl. apply relabel_index_four.
Qed.

(** X3. Two turns about the same axis, of any layers and in any directions,
    relabel the cubelets the same way in either order. *)
Theorem same_axis_turns_commute (a : Axis) (l1 l2 : Z) (d1 d2 : number) (s : Scene) :
  indices (bakeAndUpdateIndices a l1 d1 (bakeAndUpdateIndices a l2 d2 s))
  = indices (bakeAndUpdateIndices a l2 d2 (bakeAndUpdateIndices a l1 d1 s)).
Proof.
  rewrite !bake_indices, <- !list_fmap_compose.
  apply list_fmap_ext. intros _ u _. simpl. apply relabel_index_comm.
Qed.

(** *** Edge cases of the layer number *)

Lemma indices_ok_in_range s u : indices_ok s -> u ∈ indices s -> in_range u.
Proof. intros Hp Hu. apply elem_of_grid. unfold indices_ok in Hp. by rewrite <- Hp. Qed.

(** X4. A layer number outside -1..1 selects nothing: on a scene whose
    indices are a permutation of the grid, [bakeAndUpdateIndices] with such
    a layer changes no index, and [attachLayer] with such a layer leaves the
    turn group empty. *)
Theorem layer_out_of_range_selects_nothing (a : Axis) (l : Z) (d : number) (s : Scene) :
  indices_ok s -> graph_ok s -> l < -1 \/ 1 < l ->
  indices (bakeAndUpdateIndices a l d s) = indices s
  /\ turn_children (attachLayer a l s) = [].
Proof.
  intros Hp Hg Hl. split.
  - rewrite bake_indices. rewrite <- (list_fmap_id (indices s)) at 2.
    apply list_fmap_ext. intros n u Hu. simpl.
    apply relabel_index_out.
    assert (in_range u) as (Hi & Hj & Hk)
      by (eapply indices_ok_in_range; [done|by eapply list_elem_of_lookup_2]).
    destruct a; simpl; lia.
  - destruct (attachLayer_spec a l s Hg) as ([_ Hin] & Hi & _ & Hpar).
    apply elem_of_nil_inv. intros n (c & Hc & Hc')%Hin.
    apply (Hpar n c Hc) in Hc'.
    assert (userData c ∈ indices s) as Hu.
    { rewrite <- Hi. unfold indices. apply list_elem_of_fmap. eexists. split; [done|].
      by eapply list_elem_of_lookup_2. }
    destruct (indices_ok_in_range s _ Hp Hu) as (? & ? & ?).
    destruct a; simpl in Hc'; lia.
Qed.

Lemma layer_out_of_range_selects_nothing_witness :
  turn_children (attachLayer AxisX 2 initial_scene) = [].
Proof.
  refine (proj2 (layer_out_of_range_selects_nothing AxisX 2 1%float initial_scene
                   initial_indices_ok initial_graph_ok _)).
  right. lia.
Defined.

(** *** What [bakeAndUpdateIndices] does to any consistent scene *)

(** X5. On a consistent scene graph, whatever the rotation of the turn
    group, [bakeAndUpdateIndices] leaves the scene graph consistent, the
    turn group empty and unrotated at its old position, and every cubelet
    under the root; the matrix of each former child of the turn group is
    multiplied once by the group's transform as it was, and the matrix of
    every other cubelet is as it was. *)
Theorem bake_returns_children (a : Axis) (l : Z) (d : number) (s : Scene) :
  graph_ok s ->
  graph_ok (bakeAndUpdateIndices a l d s)
  /\ turn_children (bakeAndUpdateIndices a l d s) = []
  /\ turnGroup (bakeAndUpdateIndices a l d s)
     = {| position := position (turnGroup s); rotation := zero3 |}
  /\ (forall n c, cubelets s !! n = Some c ->
        exists c', cubelets (bakeAndUpdateIndices a l d s) !! n = Some c'
          /\ parent c' = Root
          /\ matrix c' = (if decide (n ∈ turn_children s)
                          then [Times (turnGroup s)] else []) ++ matrix c).
Proof.
  intros Hg. destruct (bake_spec a l d s Hg) as (H1 & H2 & H3 & H4).
  split; [done|]. split; [done|]. split; [done|].
  intros n c Hc. eexists. split; [by apply H4|]. split; [done|]. simpl.
  destruct (parent c) eqn:Hp.
  - rewrite decide_False; [done|]. intros (c' & Hc' & Hp')%Hg. congruence.
  - rewrite decide_True; [done|]. apply Hg. eauto.
Qed.

Lemma bake_returns_children_witness :
  turn_children (bakeAndUpdateIndices AxisX 1 1%float
                   (attachLayer AxisX 1 initial_scene)) = [].
Proof.
  refine (proj1 (proj2 (bake_returns_children AxisX 1 1%float _ _))).
  apply (attachLayer_spec AxisX 1 initial_scene initial_graph_ok).
Defined.

(** *** Along every run: piece types *)

Lemma norm2_rot a d u : norm2 (rot a d u) = norm2 u.
Proof.
  unfold norm2, rot. destruct a, (PrimFloat.ltb 0 d); simpl; ring.
Qed.

Lemma norm2_relabel_index a l d u : norm2 (relabel_index a l d u) = norm2 u.
Proof. unfold relabel_index. case (_ =? _); [apply norm2_rot|done]. Qed.

Lemma floor_below_lt n v : (0 < n)%nat -> (floor_below n v < n)%nat.
Proof.
  induction n as [|n IH]; intros Hn; [lia|]. simpl.
  destruct (PrimFloat.leb _ _); [lia|].
  destruct n as [|n]; [simpl; lia|]. specialize (IH ltac:(lia)). lia.
Qed.

Lemma pick_elem {T} (arr : list T) r d : arr <> [] -> pick arr r d ∈ arr.
Proof.
  intros Hne. unfold pick. apply list_elem_of_In, nth_In, floor_below_lt.
  destruct arr; [done|simpl; lia].
Qed.

Lemma indices_set_turnGroup g s : indices (set_turnGroup g s) = indices s.
Proof. done. Qed.

Section RunMore.

Context {Quaternion : Type}.
Variable slerp : Quaternion -> Quaternion -> number -> Quaternion.
Implicit Types st : @Anim Quaternion.

Lemma start_turn_indices rnd st :
  anim_ok st -> indices (scene (start_turn rnd st)) = indices (scene st).
Proof.
  intros Hst. unfold start_turn. destruct (negb (turning st) && _); [|done].
  cbn. apply attachLayer_spec, Hst.
Qed.

Lemma advance_turn_indices dt rnd st :
  indices (scene (advance_turn dt rnd st)) = indices (scene st)
  \/ indices (scene (advance_turn dt rnd st))
     = relabel_index (turnAxis st) (layer st) (dir st) <$> indices (scene st).
Proof.
  unfold advance_turn. destruct (turning st); [|by left].
  destruct (turn_done dt st); [|by left].
  right. cbn [scene]. rewrite indices_set_turnGroup.
  by rewrite bake_indices, !indices_set_turnGroup.
Qed.

Lemma frame_norm2 dt rnd st :
  anim_ok st ->
  norm2 <$> indices (scene (frame slerp dt rnd st)) = norm2 <$> indices (scene st).
Proof.
  intros Hst. unfold frame.
  pose proof (start_turn_indices rnd (orient_and_wait slerp dt st) Hst) as Hs.
  fold (at_turn_test slerp dt rnd st) in Hs. cbn [orient_and_wait scene] in Hs.
  destruct (advance_turn_indices dt rnd (at_turn_test slerp dt rnd st)) as [-> | ->].
  - by rewrite Hs.
  - rewrite <- list_fmap_compose, Hs. apply list_fmap_ext.
    intros _ u _. simpl. apply norm2_relabel_index.
Qed.

Lemma run_norm2 (q : Quaternion) es :
  norm2 <$> indices (scene (run slerp q es)) = norm2 <$> indices initial_scene.
Proof.
  unfold run.
  change initial_scene with (scene (initial_anim q)).
  generalize (initial_anim_ok q). generalize (initial_anim q).
  induction es as [|e es IH]; intros st Hst; simpl; [done|].
  destruct e as [dt rnd|q'].
  - rewrite IH by (by apply frame_ok). by apply frame_norm2.
  - by rewrite IH by (by apply set_target_ok).
Qed.

(** X6. Along every run each cubelet keeps its kind: the squared distance
    from the core of the index held at an array position is what it was at
    construction, so a corner stays a corner, an edge an edge, a face centre
    a face centre, and the core cubelet keeps the index (0,0,0). *)
Theorem piece_kind_is_kept (q : Quaternion) (es : list Input) (n : nat) (u : UserData) :
  indices (scene (run slerp q es)) !! n = Some u ->
  (exists u0, indices initial_scene !! n = Some u0 /\ norm2 u = norm2 u0)
  /\ (n = 13%nat -> u = {| i := 0; j := 0; k := 0 |}).
Proof.
  intros Hu. pose proof (run_norm2 q es) as Hn.
  apply (f_equal (fun l => l !! n)) in Hn. rewrite !list_lookup_fmap, Hu in Hn.
  destruct (indices initial_scene !! n) as [u0|] eqn:Hu0; [|done].
  injection Hn as Hn. split; [eauto|].
  intros ->. injection Hu0 as <-. unfold norm2 in Hn. simpl in Hn.
  destruct u as [a b c]; simpl in *. f_equal; nia.
Qed.

(** *** Along every run: nine cubelets per turn *)

Lemma children_count (s : Scene) (a : Axis) (l : Z) :
  NoDup (turn_children s) ->
  (forall n, n ∈ turn_children s <->
     exists c, cubelets s !! n = Some c /\ coord a (userData c) = l) ->
  indices_ok s -> l = -1 \/ l = 0 \/ l = 1 ->
  length (turn_children s) = 9%nat.
Proof.
  intros Hnd Hin Hperm Hl. unfold indices_ok in Hperm.
  rewrite <- (layer_of_grid_has_9 a l Hl).
  rewrite <- Hperm, <- length_filter_positions.
  apply Permutation_length, NoDup_Permutation; [done| |].
  - apply NoDup_filter, NoDup_seq.
  - intros n. rewrite Hin, list_elem_of_filter, elem_of_seq.
    unfold indices. rewrite list_lookup_fmap, length_fmap.
    destruct (cubelets s !! n) as [c|] eqn:Hc; simpl.
    + split.
      * intros (? & [= <-] & Hc'). split; [f_equal; by apply Z.eqb_eq|].
        split; [lia|]. by eapply lookup_lt_Some.
      * intros [[= Hc'%Z.eqb_eq] _]. eauto.
    + split; [intros (? & ? & _)|intros [? _]]; done.
Qed.

Lemma frame_layer_ok dt rnd st : layer_ok st -> layer_ok (frame slerp dt rnd st).
Proof.
  intros Hl. unfold frame, at_turn_test.
  assert (layer_ok (start_turn rnd (orient_and_wait slerp dt st))) as Hl'.
  { unfold start_turn. destruct (negb _ && _); [|done].
    unfold layer_ok. cbn [layer].
    pose proof (pick_elem [-1; 0; 1] (random_layer rnd) 0 ltac:(done)) as Hp.
    apply list_elem_of_In in Hp.
    destruct Hp as [Hx|[Hx|[Hx|[]]]]; rewrite <- Hx; auto. }
  revert Hl'. generalize (start_turn rnd (orient_and_wait slerp dt st)).
  intros st' Hl'. unfold advance_turn.
  destruct (turning st'); [|done]. by destruct (turn_done dt st').
Qed.

Lemma run_layer_ok (q : Quaternion) es : layer_ok (run slerp q es).
Proof.
  unfold run. assert (layer_ok (initial_anim q)) as H by (right; by left).
  revert H. generalize (initial_anim q).
  induction es as [|e es IH]; intros st Hst; simpl; [done|].
  apply IH. destruct e; [by apply frame_layer_ok|done].
Qed.

(** X7. In every state a run can reach: during a turn the turn group holds
    exactly 9 cubelets, those whose coordinate along the turn axis is the
    chosen layer (which is -1, 0 or 1); outside a turn it holds none and
    every cubelet is under the root. *)
Theorem nine_cubelets_turn (q : Quaternion) (es : list Input) :
  if turning (run slerp q es)
  then length (turn_children (scene (run slerp q es))) = 9%nat
       /\ (layer (run slerp q es) = -1 \/ layer (run slerp q es) = 0
           \/ layer (run slerp q es) = 1)
       /\ (forall n c, cubelets (scene (run slerp q es)) !! n = Some c ->
             (parent c = TurnGroup <->
              coord (turnAxis (run slerp q es)) (userData c) = layer (run slerp q es)))
  else turn_children (scene (run slerp q es)) = []
       /\ (forall n c, cubelets (scene (run slerp q es)) !! n = Some c ->
             parent c = Root).
Proof.
  pose proof (run_ok slerp q es) as (Hg & Hi & _ & _ & Hturn).
  pose proof (run_layer_ok q es) as Hl.
  destruct (turning (run slerp q es)).
  - destruct Hturn as [_ Hmem]. split; [|split; [done|]].
    + apply (children_count _ (turnAxis (run slerp q es)) (layer (run slerp q es)));
        try done. apply Hg.
    + intros n c Hc. split.
      * intros Hp. assert (n ∈ turn_children (scene (run slerp q es))) as Hn
          by (apply Hg; eauto).
        apply Hmem in Hn as (c' & Hc' & Hl'). congruence.
      * intros Hc'. assert (n ∈ turn_children (scene (run slerp q es))) as Hn
          by (apply Hmem; eauto).
        apply Hg in Hn as (c' & Hc'' & Hp). congruence.
  - destruct Hturn as [Hnil _]. split; [done|].
    intros n c Hc. by eapply root_only.
Qed.

End RunMore.

Lemma piece_kind_is_kept_witness :
  exists u0, indices initial_scene !! 13%nat = Some u0
             /\ norm2 {| i := 0; j := 0; k := 0 |} = norm2 u0.
Proof.
  exact (proj1 (piece_kind_is_kept (fun _ _ _ => tt) tt [] 13%nat
                  {| i := 0; j := 0; k := 0 |} eq_refl)).
Defined.

(** *** Along every run: matrices made of exact quarter turns *)

Lemma attach_Root_matrices n s :
  matrices_ok s -> quarter_factor (Times (turnGroup s)) ->
  matrices_ok (attach Root n s).
Proof.
  intros Hm Ht x c Hc. destruct (decide (x = n)) as [->|Hne].
  - destruct (cubelets s !! n) as [c0|] eqn:Hc0.
    + rewrite (attach_lookup Root n s c0 Hc0) in Hc. injection Hc as <-. simpl.
      destruct (parent c0); simpl; [|constructor; [done|]]; by eapply Hm.
    + unfold attach in Hc. rewrite Hc0 in Hc. congruence.
  - rewrite attach_lookup_ne in Hc by done. by eapply Hm.
Qed.

Lemma attach_TurnGroup_matrices n s :
  matrices_ok s -> turnGroup s = zero_group ->
  (forall c, cubelets s !! n = Some c -> parent c = Root) ->
  matrices_ok (attach TurnGroup n s).
Proof.
  intros Hm Ht Hp x c Hc. destruct (decide (x = n)) as [->|Hne].
  - destruct (cubelets s !! n) as [c0|] eqn:Hc0.
    + rewrite (attach_lookup TurnGroup n s c0 Hc0) in Hc. injection Hc as <-. simpl.
      rewrite (Hp c0 eq_refl). simpl. constructor; [done|]. by eapply Hm.
    + unfold attach in Hc. rewrite Hc0 in Hc. congruence.
  - rewrite attach_lookup_ne in Hc by done. by eapply Hm.
Qed.

Lemma attach_all_Root_matrices ns s :
  matrices_ok s -> quarter_factor (Times (turnGroup s)) ->
  matrices_ok (fold_left (fun st n => attach Root n st) ns s).
Proof.
  revert s. induction ns as [|n ns IH]; intros s Hm Ht; simpl; [done|].
  apply IH; [by apply attach_Root_matrices|by rewrite attach_turnGroup].
Qed.

Lemma bake_matrices a l d s :
  matrices_ok s -> quarter_factor (Times (turnGroup s)) ->
  matrices_ok (bakeAndUpdateIndices a l d s).
Proof.
  intros Hm Ht n c Hc. unfold bakeAndUpdateIndices in Hc. cbn in Hc.
  rewrite list_lookup_fmap in Hc.
  destruct (cubelets (fold_left _ (turn_children s) s) !! n) as [c0|] eqn:Hc0;
    [|done].
  injection Hc as <-.
  pose proof (attach_all_Root_matrices (turn_children s) s Hm Ht n c0 Hc0) as H0.
  unfold relabel. by destruct (in_layer a l c0).
Qed.

Lemma attach_matching_matrices a l s t :
  graph_ok s -> turn_children s = [] -> turnGroup s = zero_group ->
  matrices_ok s ->
  matrices_ok (fold_left (attach_if_in_layer a l) (seq 0 t) s).
Proof.
  intros Hg Hnil Ht Hm. induction t as [|t IH]; [done|].
  rewrite seq_S, fold_left_app. simpl.
  destruct (attach_matching_prefix a l s t Hg Hnil) as (_ & _ & Ht' & Hp').
  set (st := fold_left (attach_if_in_layer a l) (seq 0 t) s) in *.
  unfold attach_if_in_layer.
  destruct (cubelets st !! t) as [c|] eqn:Hc; [|done].
  destruct (in_layer a l c); [|done].
  apply attach_TurnGroup_matrices; [done|by rewrite Ht'|].
  intros c' Hc'. rewrite Hc in Hc'. injection Hc' as <-.
  destruct (parent c) eqn:Hpc; [done|].
  apply (Hp' t c Hc) in Hpc. lia.
Qed.

Lemma attachLayer_matrices a l s :
  graph_ok s -> turn_children s = [] -> matrices_ok s ->
  matrices_ok (attachLayer a l s).
Proof.
  intros Hg Hnil Hm. unfold attachLayer. cbn [set_turnGroup turn_children].
  rewrite Hnil. cbn [length detach_loop].
  by apply attach_matching_matrices.
Qed.

Lemma initial_matrices_ok : matrices_ok initial_scene.
Proof.
  intros n c Hc. apply list_elem_of_lookup_2, list_elem_of_In in Hc.
  simpl in Hc.
  repeat (destruct Hc as [<- | Hc]; [by repeat constructor|]). destruct Hc.
Qed.

Section RunMatrices.

Context {Quaternion : Type}.
Variable slerp : Quaternion -> Quaternion -> number -> Quaternion.
Implicit Types st : @Anim Quaternion.

Lemma start_turn_matrices rnd st :
  anim_ok st -> matrices_ok (scene st) -> matrices_ok (scene (start_turn rnd st)).
Proof.
  intros Hst Hm. unfold start_turn.
  destruct (negb (turning st)) eqn:Hturning; [|done]. simpl.
  destruct (PrimFloat.leb _ _); [|done]. cbn [scene].
  destruct Hst as (Hg & _ & _ & _ & Hrest).
  destruct (turning st); [done|]. destruct Hrest as [Hnil _].
  by apply attachLayer_matrices.
Qed.

Lemma advance_turn_matrices dt rnd st :
  anim_ok st -> matrices_ok (scene st) ->
  matrices_ok (scene (advance_turn dt rnd st)).
Proof.
  intros (Hg & _ & Hpos & Hdir & Hrot) Hm. unfold advance_turn.
  destruct (turning st); [|done]. destruct Hrot as [[v Hv] _].
  destruct (turnGroup (scene st)) as [p r] eqn:Htg. simpl in Hpos, Hv. subst p r.
  rewrite addAxisRotation_on_axis.
  destruct (turn_done dt st); [|done]. cbn [scene set_turnGroup turnGroup].
  rewrite setAxisRotation_on_axis.
  intros n c Hc. cbn [set_turnGroup cubelets] in Hc. revert n c Hc.
  apply bake_matrices; [done|]. cbn [set_turnGroup turnGroup quarter_factor].
  exists (turnAxis st), (dir st). done.
Qed.

Lemma frame_matrices dt rnd st :
  anim_ok st -> matrices_ok (scene st) ->
  matrices_ok (scene (frame slerp dt rnd st)).
Proof.
  intros Hst Hm. unfold frame.
  apply advance_turn_matrices; [by apply at_turn_test_ok|].
  by apply start_turn_matrices.
Qed.

(** X8. In every state a run can reach, the matrix of every cubelet is a
    product of the translation set at construction, identities (entering the
    unrotated turn group) and rotations about a single axis by exactly
    (pi/2)*dir with dir +1 or -1: no partial turn is ever baked into a
    cubelet. *)
Theorem matrices_are_quarter_turns (q : Quaternion) (es : list Input) (n : nat) (c : Mesh) :
  cubelets (scene (run slerp q es)) !! n = Some c ->
  Forall quarter_factor (matrix c).
Proof.
  revert n c. change (matrices_ok (scene (run slerp q es))).
  unfold run.
  generalize (initial_anim_ok q) (initial_matrices_ok : matrices_ok (scene (initial_anim q))).
  generalize (initial_anim q).
  induction es as [|e es IH]; intros st Hst Hm; simpl; [done|].
  destruct e as [dt rnd|q'].
  - apply IH; [by apply frame_ok|by apply frame_matrices].
  - by apply IH.
Qed.

End RunMatrices.

Lemma matrices_are_quarter_turns_witness :
  exists c,
    cubelets (scene (run (fun _ _ _ => tt) tt
                [Frame 2%float {| random_axis := 0.5; random_layer := 0.9;
                                  random_dir := 0.25; random_pause := 0.5 |}%float]))
      !! 26%nat = Some c
    /\ Forall quarter_factor (matrix c).
Proof.
  eexists. split; [by vm_compute|].
  apply (matrices_are_quarter_turns (fun _ _ _ => tt) tt
           [Frame 2%float {| random_axis := 0.5; random_layer := 0.9;
                             random_dir := 0.25; random_pause := 0.5 |}%float]
           26%nat).
  by vm_compute.
Defined.

(** *** The cursor and the turns do not meet *)

Lemma ltb_leb (x y : number) :
  PrimFloat.ltb x y = true -> PrimFloat.leb x y = true.
Proof.
  rewrite FloatAxioms.ltb_spec, FloatAxioms.leb_spec. unfold SFltb, SFleb.
  by destruct (SFcompare _ _) as [[]|].
Qed.

Section Independence.

Context {Quaternion : Type}.
Variables slerp slerp' : Quaternion -> Quaternion -> number -> Quaternion.
Implicit Types st : @Anim Quaternion.

Lemma frame_turn_state dt rnd st st' :
  turn_state st = turn_state st' ->
  turn_state (frame slerp dt rnd st) = turn_state (frame slerp' dt rnd st').
Proof.
  destruct st, st'. unfold turn_state. cbn [scene nextTurnTime turning turnAxis layer angle dir].
  intros [= -> -> -> -> -> -> ->].
  unfold frame, at_turn_test, orient_and_wait, start_turn.
  cbn [scene nextTurnTime turning turnAxis layer angle dir root_quaternion targetQuat].
  destruct (negb _ && _);
    unfold advance_turn, turn_done, turn_step;
    cbn [scene nextTurnTime turning turnAxis layer angle dir root_quaternion targetQuat];
    repeat match goal with
           | |- context [if ?b then _ else _] => destruct b
           end; reflexivity.
Qed.

(** X9. The layer turns do not depend on the cursor: a run and the same run
    with its pointer moves left out, from any starting orientation and with
    any interpolation, agree on the scene, the countdown, the turning flag,
    the axis, the layer, the angle and the direction. *)
Theorem turns_ignore_pointer (q q' : Quaternion) (es : list Input) :
  turn_state (run slerp q es) = turn_state (run slerp' q' (List.filter is_frame es)).
Proof.
  unfold run.
  assert (turn_state (initial_anim q) = turn_state (initial_anim q')) as H by done.
  revert H. generalize (initial_anim q) (initial_anim q').
  induction es as [|e es IH]; intros st st' H; [done|].
  destruct e as [dt rnd|p]; simpl.
  - apply IH. by apply frame_turn_state.
  - apply IH. by destruct st.
Qed.

End Independence.

Section Frames.

Context {Quaternion : Type}.
Variable slerp : Quaternion -> Quaternion -> number -> Quaternion.
Implicit Types st : @Anim Quaternion.

Lemma start_turn_quaternions rnd st :
  root_quaternion (start_turn rnd st) = root_quaternion st
  /\ targetQuat (start_turn rnd st) = targetQuat st.
Proof. unfold start_turn. by destruct (negb _ && _). Qed.

Lemma advance_turn_quaternions dt rnd st :
  root_quaternion (advance_turn dt rnd st) = root_quaternion st
  /\ targetQuat (advance_turn dt rnd st) = targetQuat st.
Proof.
  unfold advance_turn. destruct (turning st); [|done]. by destruct (turn_done dt st).
Qed.

(** X10. Whatever the turn does, a frame moves the root orientation by
    [slerp] toward the target, which it leaves alone, with a factor that is
    NaN or at most 1; the factor is exactly 1 when [dt * 5] is a number
    that is not below 1. *)
Theorem frame_orientation (dt : number) (rnd : Random) st :
  root_quaternion (frame slerp dt rnd st)
    = slerp (root_quaternion st) (targetQuat st) (slerp_factor dt)
  /\ targetQuat (frame slerp dt rnd st) = targetQuat st
  /\ (PrimFloat.is_nan (slerp_factor dt) = true
      \/ PrimFloat.leb (slerp_factor dt) 1 = true)
  /\ (PrimFloat.is_nan (dt * 5)%float = false ->
      PrimFloat.ltb (dt * 5)%float 1 = false -> slerp_factor dt = 1%float).
Proof.
  split; [|split; [|split]].
  - unfold frame, at_turn_test.
    by rewrite (proj1 (advance_turn_quaternions _ _ _)),
      (proj1 (start_turn_quaternions _ _)).
  - unfold frame, at_turn_test.
    by rewrite (proj2 (advance_turn_quaternions _ _ _)),
      (proj2 (start_turn_quaternions _ _)).
  - unfold slerp_factor, Math_min.
    change (PrimFloat.is_nan 1) with false. cbv iota.
    destruct (PrimFloat.is_nan (dt * 5)) eqn:Hn; [by left|].
    destruct (PrimFloat.ltb (dt * 5) 1) eqn:Hlt; right; [by apply ltb_leb|done].
  - intros Hn Hlt. unfold slerp_factor, Math_min.
    change (PrimFloat.is_nan 1) with false. cbv iota. by rewrite Hn, Hlt.
Qed.

(** X11. A frame that finds a turn on and leaves it on changes, of the
    scene, only the Euler angle of the turn group about the turn axis,
    which grows by [Math.PI / 2 / turnDuration * dt * dir]; the two other
    angles and the position of the group, the cubelets (indices, parents,
    matrices), the children of the turn group, the axis, the layer and the
    direction are as before, the angle turned so far grows by the absolute
    value of the step, and the random numbers of the frame are not used.
    A frame outside a turn whose countdown has not run out leaves the scene
    and all turn variables but the countdown as they were. *)
Theorem quiet_frames (dt : number) (rnd rnd' : Random) st :
  (turning st = true -> turning (frame slerp dt rnd st) = true ->
     cubelets (scene (frame slerp dt rnd st)) = cubelets (scene st)
     /\ turn_children (scene (frame slerp dt rnd st)) = turn_children (scene st)
     /\ position (turnGroup (scene (frame slerp dt rnd st)))
        = position (turnGroup (scene st))
     /\ (forall a,
          angle_about a (rotation (turnGroup (scene (frame slerp dt rnd st))))
          = if decide (a = turnAxis st)
            then (angle_about a (rotation (turnGroup (scene st)))
                  + Math_PI / 2 / turnDuration * dt * dir st)%float
            else angle_about a (rotation (turnGroup (scene st))))
     /\ angle (frame slerp dt rnd st)
        = (angle st + abs (Math_PI / 2 / turnDuration * dt * dir st))%float
     /\ turnAxis (frame slerp dt rnd st) = turnAxis st
     /\ layer (frame slerp dt rnd st) = layer st
     /\ dir (frame slerp dt rnd st) = dir st
     /\ frame slerp dt rnd' st = frame slerp dt rnd st)
  /\ (turning st = false -> PrimFloat.leb (nextTurnTime st - dt)%float 0 = false ->
        scene (frame slerp dt rnd st) = scene st
        /\ turning (frame slerp dt rnd st) = false
        /\ nextTurnTime (frame slerp dt rnd st) = (nextTurnTime st - dt)%float
        /\ frame slerp dt rnd' st = frame slerp dt rnd st).
Proof.
  split.
  - intros Hturning.
    assert (forall r, at_turn_test slerp dt r st = orient_and_wait slerp dt st) as Hat.
    { intros r. unfold at_turn_test, start_turn. cbn [orient_and_wait turning].
      by rewrite Hturning. }
    unfold frame. rewrite !Hat. unfold advance_turn.
    cbn [orient_and_wait turning]. rewrite Hturning.
    destruct (turn_done dt _); [done|]. intros _.
    cbn [scene set_turnGroup turnGroup cubelets turn_children turnAxis layer dir angle
         orient_and_wait].
    unfold turn_step. cbn [orient_and_wait dir].
    split; [done|]. split; [done|]. split; [done|]. split; [|done].
    intros a. unfold addAxisRotation. by destruct a, (turnAxis st).
  - intros Hturning Hwait.
    assert (forall r, at_turn_test slerp dt r st = orient_and_wait slerp dt st) as Hat.
    { intros r. unfold at_turn_test, start_turn.
      cbn [orient_and_wait turning nextTurnTime]. by rewrite Hturning, Hwait. }
    unfold frame. rewrite !Hat. unfold advance_turn.
    cbn [orient_and_wait turning]. by rewrite Hturning.
Qed.

End Frames.

Lemma frame_orientation_witness :
  PrimFloat.is_nan (1 * 5)%float = false
  /\ PrimFloat.ltb (1 * 5)%float 1 = false
  /\ slerp_factor 1%float = 1%float.
Proof.
  split; [done|]. split; [done|].
  by apply (proj2 (proj2 (proj2 (frame_orientation (fun _ _ _ => tt) 1%float
              {| random_axis := 0; random_layer := 0; random_dir := 0;
                 random_pause := 0 |}%float (initial_anim tt))))).
Defined.

Lemma quiet_frames_witness :
  (exists st : @Anim unit,
     st = run (fun _ _ _ => tt) tt
            [Frame 1.79%float {| random_axis := 0.5; random_layer := 0.9;
                                 random_dir := 0.75; random_pause := 0.5 |}%float;
             Frame 0.016%float {| random_axis := 0.5; random_layer := 0.9;
                                  random_dir := 0.75; random_pause := 0.5 |}%float]
     /\ turning st = true
     /\ turnAxis st = AxisY
     /\ angle_about AxisY
          (rotation (turnGroup (scene (frame (fun _ _ _ => tt) 0.016%float
             {| random_axis := 0; random_layer := 0; random_dir := 0;
                random_pause := 0 |}%float st))))
        = (angle_about AxisY (rotation (turnGroup (scene st)))
           + Math_PI / 2 / turnDuration * 0.016 * dir st)%float)
  /\ scene (frame (fun _ _ _ => tt) 0.016%float
              {| random_axis := 0; random_layer := 0; random_dir := 0;
                 random_pause := 0 |}%float (initial_anim tt))
     = scene (initial_anim tt).
Proof.
  split.
  - eexists. split; [reflexivity|]. split; [by vm_compute|]. split; [by vm_compute|].
    refine (proj1 (proj2 (proj2 (proj2
              (proj1 (quiet_frames (fun _ _ _ => tt) 0.016%float
                 {| random_axis := 0; random_layer := 0; random_dir := 0;
                    random_pause := 0 |}%float
                 {| random_axis := 0; random_layer := 0; random_dir := 0;
                    random_pause := 0 |}%float _) _ _)))) AxisY);
      by vm_compute.
  - refine (proj1 (proj2 (quiet_frames (fun _ _ _ => tt) 0.016%float
              {| random_axis := 0; random_layer := 0; random_dir := 0;
                 random_pause := 0 |}%float
              {| random_axis := 0; random_layer := 0; random_dir := 0;
                 random_pause := 0 |}%float (initial_anim tt)) _ _)); done.
Defined.

End CubeFacts.

(** * The library in exact arithmetic *)

Module ExactFacts.
Import Exact.

Local Open Scope R_scope.

Lemma Vector3_eq (u v : Vector3) : x u = x v -> y u = y v -> z u = z v -> u = v.
Proof. destruct u, v; simpl; congruence. Qed.

Lemma lengthSq_nonneg v : 0 <= lengthSq v.
Proof. unfold lengthSq. nra. Qed.

Lemma length_sqr v : length v * length v = lengthSq v.
Proof. apply sqrt_sqrt, lengthSq_nonneg. Qed.

Lemma length_nonneg v : 0 <= length v.
Proof. apply sqrt_pos. Qed.

Lemma length_pos v : 0 < lengthSq v -> 0 < length v.
Proof. apply sqrt_lt_R0. Qed.

Lemma unit_lengthSq v : length v = 1 -> lengthSq v = 1.
Proof. intros H. rewrite <- length_sqr, H. lra. Qed.

Lemma or_1_pos l : 0 <= l -> 0 < or_1 l.
Proof. intros Hl. unfold or_1. destruct (Req_dec_T l 0); lra. Qed.

Lemma normalize_unit v : length v <> 0 -> length (normalize v) = 1.
Proof.
  intros Hl. unfold normalize, or_1. destruct (Req_dec_T _ _) as [|_]; [done|].
  rewrite <- sqrt_1. unfold length at 1. f_equal.
  unfold divideScalar, multiplyScalar, lengthSq. cbn [x y z].
  pose proof (length_sqr v) as H. unfold lengthSq in H.
  generalize dependent (length v). intros l Hl H.
  transitivity ((x v * x v + y v * y v + z v * z v) / (l * l)); [by field|].
  rewrite <- H. by field.
Qed.

Lemma sum_sqr_0 (p q s : R) : p * p + q * q + s * s = 0 -> p = 0 /\ q = 0 /\ s = 0.
Proof.
  intros H. pose proof (Rle_0_sqr p). pose proof (Rle_0_sqr q). pose proof (Rle_0_sqr s).
  unfold Rsqr in *.
  repeat split; apply Rsqr_eq_0; unfold Rsqr; lra.
Qed.

Lemma Quaternion_normalize_scaled q :
  0 < Quaternion_lengthSq q ->
  exists m, m * m * Quaternion_lengthSq q = 1
    /\ Quaternion_normalize q
       = {| qx := qx q * m; qy := qy q * m; qz := qz q * m; qw := qw q * m |}.
Proof.
  intros Hq. unfold Quaternion_normalize, Quaternion_length.
  assert (sqrt (Quaternion_lengthSq q) * sqrt (Quaternion_lengthSq q)
          = Quaternion_lengthSq q) as Hs by (apply sqrt_sqrt; lra).
  destruct (Req_dec_T _ _) as [H0|Hne].
  - rewrite H0 in Hs. lra.
  - exists (1 / sqrt (Quaternion_lengthSq q)). split; [|done].
    rewrite <- Hs at 3. by field.
Qed.

(** In exact arithmetic [setFromUnitVectors(u, v)] takes [u] to [v]. *)
Lemma setFromUnitVectors_rotates u v :
  length u = 1 -> length v = 1 -> applyQuaternion u (setFromUnitVectors u v) = v.
Proof.
  intros Hu%unit_lengthSq Hv%unit_lengthSq.
  destruct u as [a b c], v as [d e f]. unfold lengthSq in *. cbn [x y z] in *.
  unfold setFromUnitVectors, dot. cbn [x y z].
  remember (a * d + b * e + c * f + 1) as r eqn:Er.
  assert (0 <= r) as Hr.
  { pose proof (Rle_0_sqr (a + d)). pose proof (Rle_0_sqr (b + e)).
    pose proof (Rle_0_sqr (c + f)). unfold Rsqr in *. nra. }
  destruct (Rle_dec r 0) as [Hle|Hgt].
  - assert (r = 0) as Hr0 by lra.
    assert (d = - a /\ e = - b /\ f = - c) as (-> & -> & ->).
    { assert ((a+d)*(a+d) + (b+e)*(b+e) + (c+f)*(c+f) = 0) as H0 by nra.
      apply sum_sqr_0 in H0. lra. }
    clear Hv Er Hr Hle Hr0 r.
    destruct (Rlt_dec (Rabs c) (Rabs a)) as [Hac|Hac].
    + destruct (Quaternion_normalize_scaled {| qx := - b; qy := a; qz := 0; qw := 0 |})
        as (m & Hm & ->).
      { unfold Quaternion_lengthSq. cbn [qx qy qz qw].
        assert (a <> 0) as Ha by (intros ->; rewrite Rabs_R0 in Hac;
                                  pose proof (Rabs_pos c); lra).
        pose proof (Rle_0_sqr b). unfold Rsqr in *. nra. }
      unfold Quaternion_lengthSq in Hm. cbn [qx qy qz qw] in Hm.
      unfold applyQuaternion. cbn [x y z qx qy qz qw].
      apply Vector3_eq; cbn [x y z]; nsatz.
    + destruct (Quaternion_normalize_scaled {| qx := 0; qy := - c; qz := b; qw := 0 |})
        as (m & Hm & ->).
      { unfold Quaternion_lengthSq. cbn [qx qy qz qw].
        destruct (Req_dec_T c 0) as [->|Hc].
        - rewrite Rabs_R0 in Hac. pose proof (Rabs_pos a).
          assert (a = 0) as ->.
          { destruct (Req_dec_T a 0) as [|Ha]; [done|]. apply Rabs_pos_lt in Ha. lra. }
          nra.
        - pose proof (Rle_0_sqr b). unfold Rsqr in *. nra. }
      unfold Quaternion_lengthSq in Hm. cbn [qx qy qz qw] in Hm.
      unfold applyQuaternion. cbn [x y z qx qy qz qw].
      apply Vector3_eq; cbn [x y z]; nsatz.
  - destruct (Quaternion_normalize_scaled
                {| qx := b * f - c * e; qy := c * d - a * f;
                   qz := a * e - b * d; qw := r |}) as (m & Hm & ->).
    { unfold Quaternion_lengthSq. cbn [qx qy qz qw]. nra. }
    unfold Quaternion_lengthSq in Hm. cbn [qx qy qz qw] in Hm.
    unfold applyQuaternion. cbn [x y z qx qy qz qw].
    apply Vector3_eq; cbn [x y z]; subst r; nsatz.
Qed.

Lemma three_documented : Pointer.documented three.
Proof.
  split.
  - intros v. apply normalize_unit.
  - intros u v. apply setFromUnitVectors_rotates.
  - simpl. unfold length, lengthSq. simpl.
    intros H. apply sqrt_eq_0 in H; lra.
Qed.

Lemma normalize_zero : normalize {| x := 0; y := 0; z := 0 |} = {| x := 0; y := 0; z := 0 |}.
Proof.
  unfold normalize, divideScalar, multiplyScalar. cbn [x y z].
  apply Vector3_eq; cbn [x y z]; lra.
Qed.

Lemma length_zero : length {| x := 0; y := 0; z := 0 |} = 0.
Proof.
  unfold length, lengthSq. cbn [x y z].
  replace (0 * 0 + 0 * 0 + 0 * 0) with 0 by lra. apply sqrt_0.
Qed.

Lemma length_multiplyScalar v s : 0 <= s -> length (multiplyScalar v s) = length v * s.
Proof.
  intros Hs. unfold length.
  replace (lengthSq (multiplyScalar v s)) with (lengthSq v * (s * s))
    by (unfold lengthSq, multiplyScalar; cbn [x y z]; ring).
  rewrite sqrt_mult; [|apply lengthSq_nonneg|nra].
  by rewrite sqrt_square.
Qed.

(** A positive multiple of a vector of length 1 has that vector as its
    direction. *)
Lemma normalize_multiple u s :
  length u = 1 -> 0 < s -> normalize (multiplyScalar u s) = u.
Proof.
  intros Hu Hs. unfold normalize.
  rewrite length_multiplyScalar, Hu by lra.
  unfold or_1. destruct (Req_dec_T _ _); [lra|].
  unfold divideScalar, multiplyScalar. cbn [x y z].
  apply Vector3_eq; cbn [x y z]; field; lra.
Qed.

Lemma distanceTo_length a b : distanceTo a b = length (sub a b).
Proof. done. Qed.

Lemma length_sub_sym a b : length (sub a b) = length (sub b a).
Proof.
  unfold length. f_equal. unfold lengthSq, sub. cbn [x y z]. ring.
Qed.

(** The cursor in the middle of the window: the ray is the axis of the
    camera, and its point at the depth of the target is the target. *)
Lemma middle_of_window (c : Camera) (w h : R) :
  w <> 0 -> h <> 0 -> length (sub (target c) (position c)) <> 0 ->
  0 < depth c 0.5 ->
  Pointer.from_center (H := three) (@Pointer.Build_View three c (target c) w h)
    (w / 2) (h / 2)
  = {| x := 0; y := 0; z := 0 |}.
Proof.
  intros Hw Hh Hl Hd.
  unfold Pointer.from_center, Pointer.point_at_center_depth, Pointer.ray_direction,
    Pointer.under_cursor, Pointer.cursor_ndc_x, Pointer.cursor_ndc_y.
  cbn.
  replace (w / 2 / w * 2 - 1) with 0 by (by field).
  replace (- (h / 2 / h) * 2 + 1) with 0 by (by field).
  assert (sub (unproject {| x := 0; y := 0; z := 0.5 |} c) (position c)
          = multiplyScalar (forward c) (depth c 0.5)) as ->.
  { unfold unproject, add, sub, multiplyScalar. cbn [x y z].
    apply Vector3_eq; cbn [x y z]; ring. }
  rewrite normalize_multiple; [|by apply normalize_unit|done].
  rewrite distanceTo_length, length_sub_sym.
  unfold forward, normalize, or_1.
  destruct (Req_dec_T _ _) as [|_]; [done|].
  generalize dependent (length (sub (target c) (position c))). intros l Hl.
  unfold divideScalar, multiplyScalar, add, sub. cbn [x y z].
  apply Vector3_eq; cbn [x y z]; by field.
Qed.

Lemma hero_camera_depth : 0 < depth hero_camera 0.5.
Proof. unfold depth, hero_camera. cbn [near far]. apply Rdiv_lt_0_compat; lra. Qed.

Lemma hero_camera_distance :
  length (sub (target hero_camera) (position hero_camera)) <> 0.
Proof.
  apply Rgt_not_eq, length_pos.
  unfold lengthSq, sub, hero_camera. cbn [x y z target position]. lra.
Qed.

(** In the window of 1280 by 720, with the cursor in the middle: the
    normalized difference is the zero vector, of length 0. *)
Lemma hero_view_middle_direction :
  Pointer.direction_from_center (H := three) hero_view 640 360
  = {| x := 0; y := 0; z := 0 |}.
Proof.
  replace 640 with (1280 / 2) by lra. replace 360 with (720 / 2) by lra.
  unfold Pointer.direction_from_center.
  change hero_view
    with (@Pointer.Build_View three hero_camera (target hero_camera) 1280 720).
  rewrite (middle_of_window hero_camera 1280 720);
    [|lra|lra|apply hero_camera_distance|apply hero_camera_depth].
  apply normalize_zero.
Qed.

Lemma hero_view_middle :
  length (Pointer.direction_from_center (H := three) hero_view 640 360) = 0.
Proof. rewrite hero_view_middle_direction. apply length_zero. Qed.

Lemma normalize_x v : x (normalize v) = x v * (1 / or_1 (length v)).
Proof. done. Qed.

Lemma normalize_y v : y (normalize v) = y v * (1 / or_1 (length v)).
Proof. done. Qed.

Lemma normalize_z v : z (normalize v) = z v * (1 / or_1 (length v)).
Proof. done. Qed.

Lemma or_1_length_inv_pos v : 0 < 1 / or_1 (length v).
Proof. apply Rdiv_lt_0_compat; [lra|]. apply or_1_pos, length_nonneg. Qed.

Lemma length_nonzero_x v : x v <> 0 -> length v <> 0.
Proof.
  intros Hx. apply Rgt_not_eq, length_pos. unfold lengthSq.
  pose proof (Rle_0_sqr (y v)). pose proof (Rle_0_sqr (z v)). unfold Rsqr in *.
  assert (0 < x v * x v) by nra. lra.
Qed.

Lemma front_camera_depth : 0 < depth front_camera 0.5.
Proof. unfold depth, front_camera. cbn [near far]. apply Rdiv_lt_0_compat; lra. Qed.

(** With the cursor at the right edge of the window the point at the depth
    of the center lies to the right of the center. *)
Lemma front_view_right_edge :
  length (Pointer.from_center (H := three) front_view 800 400) <> 0.
Proof.
  apply length_nonzero_x, Rgt_not_eq.
  unfold Pointer.from_center, Pointer.point_at_center_depth, Pointer.ray_direction,
    Pointer.under_cursor, Pointer.cursor_ndc_x, Pointer.cursor_ndc_y.
  cbn [Pointer.Vector3_sub Pointer.Vector3_add Pointer.Vector3_multiplyScalar
       Pointer.Vector3_normalize Pointer.Vector3_unproject Pointer.Vector3_distanceTo
       Pointer.camera_position Pointer.new_Vector3 Pointer.minus Pointer.plus
       Pointer.times Pointer.divide Pointer.negate Pointer.literal Pointer.half three
       Pointer.camera Pointer.center Pointer.innerWidth Pointer.innerHeight front_view].
  replace (800 / 800 * 2 - 1) with 1 by lra.
  replace (- (400 / 800) * 2 + 1) with 0 by lra.
  pose proof front_camera_depth as Hd.
  assert (x (forward front_camera) = 0) as Hfx.
  { unfold forward. rewrite normalize_x. cbn. lra. }
  assert (z (forward front_camera) < 0) as Hfz.
  { unfold forward. rewrite normalize_z.
    pose proof (or_1_length_inv_pos
                  (sub (target front_camera) (position front_camera))).
    cbn [sub x y z target position front_camera] in *. nra. }
  assert (0 < x (right front_camera)) as Hrx.
  { unfold right. rewrite normalize_x.
    pose proof (or_1_length_inv_pos (cross (forward front_camera) up)).
    unfold cross at 1. cbn [x y z up]. nra. }
  assert (0 < distanceTo (position front_camera) {| x := 0; y := 0; z := 0 |}) as Hdist.
  { rewrite distanceTo_length. apply length_pos. unfold lengthSq. cbn. lra. }
  set (ray := sub (unproject {| x := 1; y := 0; z := 0.5 |} front_camera)
                  (position front_camera)).
  assert (0 < x ray) as Hray.
  { unfold ray, unproject, add, sub, multiplyScalar.
    cbn [x y z position tan_half_fov aspect front_camera].
    fold front_camera. rewrite Hfx. nra. }
  pose proof (or_1_length_inv_pos ray) as Hl.
  unfold sub at 1, add at 1, multiplyScalar at 1. cbn [x].
  rewrite normalize_x. cbn [x position front_camera] in *.
  assert (0 < x ray * (1 / or_1 (length ray))) by nra. nra.
Qed.

Lemma setFromUnitVectors_zero u :
  setFromUnitVectors u {| x := 0; y := 0; z := 0 |}
  = {| qx := 0; qy := 0; qz := 0; qw := 1 |}.
Proof.
  unfold setFromUnitVectors, dot. cbn [x y z].
  destruct (Rle_dec _ _) as [Hle|_]; [lra|].
  unfold Quaternion_normalize, Quaternion_length, Quaternion_lengthSq. cbn [qx qy qz qw].
  match goal with
  | |- context [sqrt ?e] =>
      assert (sqrt e = 1) as -> by (transitivity (sqrt 1); [f_equal; ring|apply sqrt_1])
  end.
  destruct (Req_dec_T 1 0); [lra|]. f_equal; lra.
Qed.

Lemma applyQuaternion_identity v :
  applyQuaternion v {| qx := 0; qy := 0; qz := 0; qw := 1 |} = v.
Proof.
  unfold applyQuaternion. cbn [qx qy qz qw]. apply Vector3_eq; cbn [x y z]; ring.
Qed.

(** There the target is the identity rotation, which leaves the corner
    direction where it is. *)
Lemma hero_view_middle_target :
  applyQuaternion (Pointer.cornerVec (H := three))
    (Pointer.updateOrientationFromPointer (H := three) hero_view 640 360)
  = Pointer.cornerVec (H := three).
Proof.
  change (Pointer.updateOrientationFromPointer (H := three) hero_view 640 360)
    with (setFromUnitVectors (Pointer.cornerVec (H := three))
            (Pointer.direction_from_center (H := three) hero_view 640 360)).
  rewrite hero_view_middle_direction, setFromUnitVectors_zero.
  apply applyQuaternion_identity.
Qed.

End ExactFacts.

(** * Properties of the target orientation *)

Module PointerFacts.
Import Cube Pointer.

Section Orientation.

Context `{Three}.
Variable slerp : Quat -> Quat -> number -> Quat.
Implicit Types st : @Anim Quat.

Lemma cornerVec_unit : documented H -> Vector3_length cornerVec = literal 1.
Proof. intros HL. apply (normalize_is_unit HL), (ones_have_length HL). Qed.

Lemma frame_quaternions dt rnd st :
  root_quaternion (frame slerp dt rnd st)
  = slerp (root_quaternion st) (targetQuat st) (Math_min 1 (dt * 5))%float
  /\ targetQuat (frame slerp dt rnd st) = targetQuat st.
Proof.
  unfold frame, at_turn_test. split.
  - by rewrite (proj1 (CubeFacts.advance_turn_quaternions _ _ _)),
      (proj1 (CubeFacts.start_turn_quaternions _ _)).
  - by rewrite (proj2 (CubeFacts.advance_turn_quaternions _ _ _)),
      (proj2 (CubeFacts.start_turn_quaternions _ _)).
Qed.

Lemma frames_keep_target es st :
  Forall (fun e => is_frame e = true) es ->
  targetQuat (fold_left (react slerp) es st) = targetQuat st.
Proof.
  intros Hes. revert st. induction Hes as [|e es He _ IH]; intros st; [done|].
  destruct e as [dt rnd|q]; [|done]. simpl. rewrite IH.
  apply frame_quaternions.
Qed.


End Orientation.



End PointerFacts.

(** * Properties of the buttons *)

Module ButtonFacts.
Import Buttons.

Local Open Scope string_scope.

(** *** Time passing *)

Lemma tick_no_timer s : timers s = [] -> tick s = at_time (S (now s)) s.
Proof. intros H. unfold tick, at_time. by rewrite H. Qed.

Lemma tick_not_due s d cb :
  timers s = [(d, cb)] -> S (now s) < d -> tick s = at_time (S (now s)) s.
Proof.
  intros H Hlt. unfold tick, at_time. rewrite H. simpl. unfold is_due. simpl.
  destruct (Nat.leb_spec d (S (now s))); [lia|]. done.
Qed.

Lemma tick_due s d cb :
  timers s = [(d, cb)] -> d <= S (now s) ->
  tick s = run cb {| isLoading := isLoading s; isNotified := isNotified s;
                     now := S (now s); timers := []; awaiting := awaiting s;
                     console := console s |}.
Proof.
  intros H Hle. unfold tick. rewrite H. simpl. unfold is_due. simpl.
  destruct (Nat.leb_spec d (S (now s))); [|lia]. done.
Qed.

Lemma events_app b es1 es2 s : events b (es1 ++ es2) s = events b es2 (events b es1 s).
Proof. apply fold_left_app. Qed.

Lemma events_cons b e es s : events b (e :: es) s = events b es (step b s e).
Proof. done. Qed.

Lemma wait_S b n s : events b (wait (S n)) s = events b (wait n) (tick s).
Proof. done. Qed.

Lemma wait_1 b s : events b (wait 1) s = tick s.
Proof. done. Qed.

#[local] Arguments wait : simpl never.
#[local] Arguments events : simpl never.

Lemma wait_add b n m s : events b (wait (n + m)) s = events b (wait m) (events b (wait n) s).
Proof. unfold wait. by rewrite repeat_app, events_app. Qed.

(** Until its only timer is due, a component just grows older. *)
Lemma wait_not_due b n s d cb :
  timers s = [(d, cb)] -> now s + n < d ->
  events b (wait n) s = at_time (now s + n) s.
Proof.
  revert s. induction n as [|n IH]; intros s H Hlt.
  - simpl. rewrite Nat.add_0_r. by destruct s.
  - rewrite wait_S, (tick_not_due s d cb) by (done || lia).
    rewrite (IH (at_time (S (now s)) s)) by (simpl; done || lia).
    simpl. unfold at_time. simpl. f_equal. lia.
Qed.

(** *** WatchDemoButton and NotifyMeButton: a timer resets the flag *)

Lemma watch_demo_click s :
  idle s ->
  step WatchDemo s Click
  = {| isLoading := true; isNotified := false; now := now s;
       timers := [(now s + 2000, [setIsLoading false])];
       awaiting := None; console := console s |}.
Proof.
  intros (Hl & Hn & Ht & Ha). destruct s; simpl in *; subst.
  unfold click. simpl. done.
Qed.

Lemma watch_demo_resets s n :
  idle s ->
  isLoading (step WatchDemo s Click) = true
  /\ (n < 2000 -> isLoading (events WatchDemo (wait n) (step WatchDemo s Click)) = true)
  /\ isLoading (events WatchDemo (wait 2000) (step WatchDemo s Click)) = false.
Proof.
  intros Hs. rewrite (watch_demo_click s Hs).
  set (s1 := {| isLoading := true |}).
  split; [done|]. split.
  - intros Hn.
    by rewrite (wait_not_due _ n s1 (now s + 2000) [setIsLoading false])
      by (simpl; done || lia).
  - replace (wait 2000) with (wait (1999 + 1)) by (f_equal; lia).
    rewrite wait_add, wait_1.
    rewrite (wait_not_due _ 1999 s1 (now s + 2000) [setIsLoading false])
      by (simpl; done || lia).
    rewrite (tick_due _ (now s + 2000) [setIsLoading false]) by (simpl; done || lia).
    done.
Qed.

(** *** NotifyMeButton: the three phases *)

Lemma notify_click_at_rest s :
  in_phase AtRest s -> in_phase (Loading (now s + 1500)) (step NotifyMe s Click).
Proof.
  intros (Ha & Hl & Hn & Ht). destruct s; simpl in *; subst.
  unfold click. simpl. split; [done|]. split; [done|]. split; [done|].
  split; [simpl; lia|done].
Qed.

Lemma notify_click_ignored s :
  isLoading s = true \/ isNotified s = true -> step NotifyMe s Click = s.
Proof.
  intros H. simpl. unfold click, NotifyMeButton.render.
  destruct (isNotified s); [done|]. destruct H as [-> | ?]; done.
Qed.

Lemma notify_wait_loading s due n :
  in_phase (Loading due) s -> now s + n < due ->
  in_phase (Loading due) (events NotifyMe (wait n) s).
Proof.
  intros (Ha & Hl & Hn & Hd & Ht) Hlt.
  rewrite (wait_not_due _ n s due _ Ht Hlt).
  split; [done|]. simpl. split; [done|]. split; [done|]. split; [simpl; lia|done].
Qed.

Lemma notify_tick_loading_due s due :
  in_phase (Loading due) s -> due = S (now s) ->
  in_phase (Notified (due + 3000)) (tick s).
Proof.
  intros (Ha & Hl & Hn & Hd & Ht) ->.
  rewrite (tick_due s _ _ Ht) by lia. simpl.
  split; [done|]. simpl. split; [done|]. split; [done|]. split; [simpl; lia|done].
Qed.

Lemma notify_wait_notified s due n :
  in_phase (Notified due) s -> now s + n < due ->
  in_phase (Notified due) (events NotifyMe (wait n) s).
Proof.
  intros (Ha & Hl & Hn & Hd & Ht) Hlt.
  rewrite (wait_not_due _ n s due _ Ht Hlt).
  split; [done|]. simpl. split; [done|]. split; [done|]. split; [simpl; lia|done].
Qed.

Lemma notify_tick_notified_due s due :
  in_phase (Notified due) s -> due = S (now s) -> in_phase AtRest (tick s).
Proof.
  intros (Ha & Hl & Hn & Hd & Ht) ->.
  rewrite (tick_due s _ _ Ht) by lia. simpl. done.
Qed.

(** Every event keeps NotifyMeButton in one of its phases. *)
Lemma notify_step_phase s e :
  (exists p, in_phase p s) -> exists p, in_phase p (step NotifyMe s e).
Proof.
  intros [p Hp]. destruct e as [| |r].
  - destruct p as [|due|due].
    + eexists. by apply notify_click_at_rest.
    + rewrite notify_click_ignored; [eauto|]. left. apply Hp.
    + rewrite notify_click_ignored; [eauto|]. right. apply Hp.
  - simpl. destruct p as [|due|due].
    + exists AtRest. destruct Hp as (Ha & Hl & Hn & Ht).
      rewrite tick_no_timer by done. done.
    + destruct (decide (due = S (now s))) as [Hd|Hd].
      * eexists. by apply (notify_tick_loading_due s due).
      * exists (Loading due).
        assert (now s + 1 < due) as Hlt by (destruct Hp as (_ & _ & _ & ? & _); lia).
        apply (notify_wait_loading s due 1 Hp Hlt).
    + destruct (decide (due = S (now s))) as [Hd|Hd].
      * eexists. by apply (notify_tick_notified_due s due).
      * exists (Notified due).
        assert (now s + 1 < due) as Hlt by (destruct Hp as (_ & _ & _ & ? & _); lia).
        apply (notify_wait_notified s due 1 Hp Hlt).
  - exists p. simpl. unfold settle. destruct Hp as [Ha Hp]. by rewrite Ha.
Qed.

Lemma notify_events_phase es s :
  (exists p, in_phase p s) -> exists p, in_phase p (events NotifyMe es s).
Proof.
  revert s. induction es as [|e es IH]; intros s Hs; [done|].
  simpl. by apply IH, notify_step_phase.
Qed.

Lemma in_phase_flags p s :
  in_phase p s -> ~ (isLoading s = true /\ isNotified s = true).
Proof.
  intros [_ Hp] [Hl Hn]. destruct p; destruct Hp as (? & ? & _); congruence.
Qed.

Lemma loading_flags due s :
  in_phase (Loading due) s -> isLoading s = true /\ isNotified s = false.
Proof. intros (_ & ? & ? & _). done. Qed.

Lemma notified_flags due s :
  in_phase (Notified due) s -> isLoading s = false /\ isNotified s = true.
Proof. intros (_ & ? & ? & _). done. Qed.

Lemma now_run cs s : now (run cs s) = now s.
Proof.
  revert s. induction cs as [|c cs IH]; intros s; [done|].
  destruct c; simpl; rewrite ?IH; done.
Qed.

Lemma now_callbacks (due : list (nat * list Cmd)) s :
  now (fold_left (fun st timer => run (snd timer) st) due s) = now s.
Proof.
  revert s. induction due as [|t due IH]; intros s; simpl; [done|].
  by rewrite IH, now_run.
Qed.

Lemma now_tick s : now (tick s) = S (now s).
Proof. unfold tick. by rewrite now_callbacks. Qed.

Lemma now_wait b n s : now (events b (wait n) s) = now s + n.
Proof.
  revert s. induction n as [|n IH]; intros s; [cbv [events wait fold_left repeat]; lia|].
  rewrite wait_S, IH, now_tick. lia.
Qed.

(** *** GetStartedButton and SignInButton: nothing resets the flag *)

Lemma tick_stuck s : stuck_loading s -> stuck_loading (tick s).
Proof. intros (Hl & Ht & Ha). by rewrite tick_no_timer. Qed.

Lemma settle_stuck r s : stuck_loading s -> settle r s = s.
Proof. intros (Hl & Ht & Ha). unfold settle. by rewrite Ha. Qed.

Lemma link_click b s :
  b = GetStarted \/ b = SignIn ->
  timers s = [] -> awaiting s = None -> stuck_loading (step b s Click).
Proof. intros [-> | ->] Ht Ha; done. Qed.

Lemma link_step b s e :
  b = GetStarted \/ b = SignIn -> stuck_loading s -> stuck_loading (step b s e).
Proof.
  intros Hb Hs. destruct e as [| |r].
  - apply link_click; [done|apply Hs..].
  - by apply tick_stuck.
  - simpl. by rewrite settle_stuck.
Qed.

Lemma link_events b es s :
  b = GetStarted \/ b = SignIn -> stuck_loading s -> stuck_loading (events b es s).
Proof.
  intros Hb. revert s. induction es as [|e es IH]; intros s Hs; [done|].
  rewrite events_cons. by apply IH, link_step.
Qed.

Lemma link_never_resets b es s :
  b = GetStarted \/ b = SignIn -> idle s ->
  isLoading (events b (Click :: es) s) = true.
Proof.
  intros Hb (_ & _ & Ht & Ha). rewrite events_cons.
  by apply link_events, link_click.
Qed.

(** *** SignOutButton: only a rejection resets the flag *)

Lemma sign_out_click s : idle s -> signing_out (console s) (step SignOut s Click).
Proof.
  intros (Hl & Hn & Ht & Ha). simpl. unfold click. simpl. rewrite Hl. simpl.
  done.
Qed.

Lemma sign_out_click_ignored s : isLoading s = true -> step SignOut s Click = s.
Proof. intros Hl. simpl. unfold click. simpl. by rewrite Hl. Qed.

Lemma signing_out_tick log s : signing_out log s -> signing_out log (tick s).
Proof. intros (Hl & Ht & Hc & Ha). by rewrite tick_no_timer. Qed.

Lemma signing_out_step log s e :
  not_settling e -> signing_out log s -> signing_out log (step SignOut s e).
Proof.
  intros He Hs. destruct e as [| |r]; [|by apply signing_out_tick|done].
  rewrite sign_out_click_ignored; [done|apply Hs].
Qed.

Lemma signing_out_events log es s :
  Forall not_settling es -> signing_out log s -> signing_out log (events SignOut es s).
Proof.
  intros Hes. revert s. induction Hes as [|e es He _ IH]; intros s Hs; [done|].
  rewrite events_cons. by apply IH, signing_out_step.
Qed.

Lemma signing_out_rejected log s error :
  signing_out log s ->
  isLoading (step SignOut s (Settled (Rejected error))) = false
  /\ console (step SignOut s (Settled (Rejected error)))
     = (log ++ [("Sign out error:", error)])%list.
Proof.
  intros (Hl & Ht & Hc & Ha). simpl. unfold settle. rewrite Ha. simpl.
  by rewrite Hc.
Qed.

Lemma signing_out_resolved log s :
  signing_out log s ->
  stuck_loading (step SignOut s (Settled Resolved))
  /\ console (step SignOut s (Settled Resolved)) = log.
Proof.
  intros (Hl & Ht & Hc & Ha). simpl. unfold settle. rewrite Ha. simpl. done.
Qed.

Lemma sign_out_stuck_step s e : stuck_loading s -> stuck_loading (step SignOut s e).
Proof.
  intros Hs. destruct e as [| |r].
  - rewrite sign_out_click_ignored; [done|apply Hs].
  - by apply tick_stuck.
  - simpl. by rewrite settle_stuck.
Qed.

Lemma sign_out_stuck_events es s :
  stuck_loading s -> stuck_loading (events SignOut es s).
Proof.
  revert s. induction es as [|e es IH]; intros s Hs; [done|].
  rewrite events_cons. by apply IH, sign_out_stuck_step.
Qed.

Lemma sign_out_no_rejection log es s :
  Forall no_rejection es -> signing_out log s \/ stuck_loading s ->
  isLoading (events SignOut es s) = true.
Proof.
  intros Hes. revert s. induction Hes as [|e es He _ IH]; intros s Hs.
  - destruct Hs as [Hs|Hs]; apply Hs.
  - rewrite events_cons. apply IH. destruct Hs as [Hs|Hs].
    + destruct e as [| |[|error]]; [| | |done].
      * left. by apply signing_out_step.
      * left. by apply signing_out_step.
      * right. by eapply signing_out_resolved.
    + right. by apply sign_out_stuck_step.
Qed.

(** C5. In SignOutButton, when the awaited [signOut] is rejected (after any
    clicks and passing of time in between), the loading flag is reset to
    false and the error is logged to the console under "Sign out error:";
    when it resolves, nothing is logged and the loading flag stays set
    whatever happens afterwards.  SignOutButton is the only button whose
    handler has a catch clause, and of all the components of the
    repository (the five buttons, HeroCube, the pages Home, ComingSoon and
    SignIn, RootLayout and the ten icons) the only one whose code holds a
    [try ... catch] or a rejection handler, at any depth. *)
Theorem sign_out_error_handling :
  (forall s mid error, idle s -> Forall not_settling mid ->
     isLoading (events SignOut (Click :: mid ++ [Settled (Rejected error)]) s) = false
     /\ console (events SignOut (Click :: mid ++ [Settled (Rejected error)]) s)
        = (console s ++ [("Sign out error:", error)])%list)
  /\ (forall s mid later, idle s -> Forall not_settling mid ->
        console (events SignOut (Click :: mid ++ [Settled Resolved]) s) = console s
        /\ isLoading (events SignOut (Click :: mid ++ Settled Resolved :: later) s)
           = true)
  /\ (forall b, defines_error_handling b = true <-> b = SignOut)
  /\ (forall c, Components.has_error_branch c = true <-> c = Components.SignOutButton).
Proof.
  split; [|split; [|split]].
  - intros s mid error Hs Hmid.
    rewrite events_cons, events_app, events_cons.
    apply signing_out_rejected, signing_out_events, sign_out_click; done.
  - intros s mid later Hs Hmid.
    rewrite !events_cons, !events_app, !events_cons.
    destruct (signing_out_resolved (console s)
                (events SignOut mid (step SignOut s Click))) as [H1 H2].
    { apply signing_out_events, sign_out_click; done. }
    split; [done|]. by apply sign_out_stuck_events.
  - intros b. destruct b; vm_compute; split; congruence.
  - intros c. destruct c; vm_compute; split; congruence.
Qed.

Lemma sign_out_error_handling_witness :
  idle initial
  /\ isLoading (events SignOut [Click; Tick; Settled (Rejected "network")] initial)
     = false.
Proof.
  assert (idle initial) as H by done.
  split; [done|].
  refine (proj1 (proj1 sign_out_error_handling initial [Tick] "network" H _)).
  repeat constructor.
Defined.

(** C4, as the code has it.  From rest, a click sets the loading flag in
    every button.  WatchDemoButton resets it by its timer, 2000 ms later,
    and NotifyMeButton by its timer, 1500 ms later, and not before.
    SignOutButton resets it when [signOut] is rejected, and otherwise
    never.  GetStartedButton and SignInButton never reset it. *)
Theorem loading_flag_after_click (s : State) :
  idle s ->
  (forall b, isLoading (step b s Click) = true)
  /\ (forall n, n < 2000 -> isLoading (events WatchDemo (Click :: wait n) s) = true)
  /\ isLoading (events WatchDemo (Click :: wait 2000) s) = false
  /\ (forall n, n < 1500 -> isLoading (events NotifyMe (Click :: wait n) s) = true)
  /\ isLoading (events NotifyMe (Click :: wait 1500) s) = false
  /\ (forall mid error, Forall not_settling mid ->
        isLoading (events SignOut (Click :: mid ++ [Settled (Rejected error)]) s)
        = false)
  /\ (forall es, Forall no_rejection es ->
        isLoading (events SignOut (Click :: es) s) = true)
  /\ (forall b es, b = GetStarted \/ b = SignIn ->
        isLoading (events b (Click :: es) s) = true).
Proof.
  intros Hs.
  assert (in_phase AtRest s) as Hrest by (destruct Hs as (? & ? & ? & ?); done).
  pose proof (notify_click_at_rest s Hrest) as Hn1.
  assert (now (step NotifyMe s Click) = now s) as Hnow.
  { destruct Hs as (Hl & Hn & _). simpl. unfold click, NotifyMeButton.render.
    by rewrite Hn, Hl. }
  split; [|split; [|split; [|split; [|split; [|split; [|split]]]]]].
  - intros b. destruct Hs as (Hl & Hn & _).
    destruct b; simpl; unfold click; simpl;
      unfold NotifyMeButton.render; rewrite ?Hn, ?Hl; done.
  - intros n Hn. rewrite events_cons. by apply (watch_demo_resets s n).
  - rewrite events_cons. by apply (watch_demo_resets s 0).
  - intros n Hn. rewrite events_cons.
    eapply loading_flags, (notify_wait_loading _ _ n Hn1). lia.
  - rewrite events_cons.
    replace (wait 1500) with (wait (1499 + 1)) by (f_equal; lia).
    rewrite wait_add, wait_1.
    eapply notified_flags, notify_tick_loading_due.
    + apply (notify_wait_loading _ _ 1499 Hn1). lia.
    + rewrite now_wait. lia.
  - intros mid error Hmid. rewrite events_cons, events_app, events_cons.
    eapply signing_out_rejected, signing_out_events, sign_out_click; done.
  - intros es Hes. rewrite events_cons.
    apply (sign_out_no_rejection (console s)); [done|]. left. by apply sign_out_click.
  - intros b es Hb. by apply link_never_resets.
Qed.

Lemma loading_flag_after_click_witness :
  idle initial /\ isLoading (events WatchDemo (Click :: wait 2000) initial) = false.
Proof.
  assert (idle initial) as H by done.
  split; [done|].
  exact (proj1 (proj2 (proj2 (loading_flag_after_click initial H)))).
Defined.

(** C4 as stated fails: no course of events after a click on
    GetStartedButton brings its loading flag back to false. *)
Lemma not_every_button_resets : ~ (forall b, resets_loading b).
Proof.
  intros H. destruct (H GetStarted) as [es Hes].
  rewrite link_never_resets in Hes; [done|by left|done].
Qed.

(** C10. NotifyMeButton at rest: a click sets the loading flag; for 1500 ms
    it stays set and the notified flag stays clear; at 1500 ms the loading
    flag is cleared and the notified flag set; that lasts 3000 ms; at
    4500 ms the component is at rest again.  While the loading flag (or the
    notified flag) is set a click changes nothing, the button being
    disabled (or having no handler); and whatever happens after mount, the
    two flags are never both set. *)
Theorem notify_me_cycle :
  (forall s, in_phase AtRest s ->
     (isLoading (step NotifyMe s Click) = true
      /\ isNotified (step NotifyMe s Click) = false)
     /\ (forall n, n < 1500 ->
           isLoading (events NotifyMe (Click :: wait n) s) = true
           /\ isNotified (events NotifyMe (Click :: wait n) s) = false)
     /\ (isLoading (events NotifyMe (Click :: wait 1500) s) = false
         /\ isNotified (events NotifyMe (Click :: wait 1500) s) = true)
     /\ (forall n, n < 3000 ->
           isLoading (events NotifyMe (Click :: wait (1500 + n)) s) = false
           /\ isNotified (events NotifyMe (Click :: wait (1500 + n)) s) = true)
     /\ in_phase AtRest (events NotifyMe (Click :: wait (1500 + 3000)) s))
  /\ (forall s, isLoading s = true ->
        (isNotified s = false -> disabled (render NotifyMe s) = true)
        /\ step NotifyMe s Click = s)
  /\ (forall es, ~ (isLoading (events NotifyMe es initial) = true
                    /\ isNotified (events NotifyMe es initial) = true)).
Proof.
  split; [|split].
  - intros s Hs.
    pose proof (notify_click_at_rest s Hs) as H1.
    assert (now (step NotifyMe s Click) = now s) as Hnow1.
    { destruct Hs as (Ha & Hl & Hn & Ht). simpl. unfold click, NotifyMeButton.render.
      rewrite Hn, Hl. simpl. done. }
    setoid_rewrite events_cons.
    set (s1 := step NotifyMe s Click) in *.
    assert (in_phase (Notified (now s + 1500 + 3000)) (events NotifyMe (wait 1500) s1))
      as H2.
    { replace (wait 1500) with (wait (1499 + 1)) by (f_equal; lia).
      rewrite wait_add, wait_1.
      apply notify_tick_loading_due.
      - apply notify_wait_loading; [done|lia].
      - rewrite now_wait. lia. }
    assert (now (events NotifyMe (wait 1500) s1) = now s + 1500) as Hnow2
      by (rewrite now_wait; lia).
    split; [by eapply loading_flags|].
    split; [|split; [by eapply notified_flags|split]].
    + intros n Hn. eapply loading_flags, (notify_wait_loading s1 _ n H1). lia.
    + intros n Hn. rewrite wait_add.
      eapply notified_flags, (notify_wait_notified _ _ n H2). lia.
    + replace (1500 + 3000) with (1500 + 2999 + 1) by lia.
      rewrite !wait_add, wait_1.
      apply (notify_tick_notified_due _ (now s + 1500 + 3000)).
      * apply notify_wait_notified; [done|lia].
      * rewrite now_wait. lia.
  - intros s Hl. split.
    + intros Hn. simpl. unfold NotifyMeButton.render. by rewrite Hn.
    + apply notify_click_ignored. by left.
  - intros es.
    destruct (notify_events_phase es initial) as [p Hp]; [by exists AtRest|].
    by eapply in_phase_flags.
Qed.

Lemma notify_me_cycle_witness :
  in_phase AtRest initial
  /\ isLoading (events NotifyMe (Click :: wait 1500) initial) = false.
Proof.
  assert (in_phase AtRest initial) as H by done.
  split; [done|].
  exact (proj1 (proj1 (proj2 (proj2 (proj1 notify_me_cycle initial H))))).
Defined.

(** * Further properties of the buttons *)

Lemma wait_no_timer b n s :
  timers s = [] -> events b (wait n) s = at_time (now s + n) s.
Proof.
  revert s. induction n as [|n IH]; intros s H.
  - cbv [events wait fold_left repeat]. rewrite Nat.add_0_r. by destruct s.
  - rewrite wait_S, tick_no_timer by done. rewrite IH by done.
    unfold at_time. simpl. f_equal. lia.
Qed.

(** *** WatchDemoButton always comes back *)

Lemma watch_step s e : watch_phase s -> watch_phase (step WatchDemo s e).
Proof.
  intros [Ha Hs]. destruct e as [| |r].
  - destruct Hs as [[Hl Ht]|[Hl Hs]].
    + simpl. unfold click. simpl. rewrite Hl. simpl. split; [done|]. right.
      split; [done|]. rewrite Ht. eexists. split; [done|]. simpl. lia.
    + simpl. unfold click. simpl. rewrite Hl. split; [done|]. by right.
  - simpl. destruct Hs as [[Hl Ht]|(Hl & due & Ht & Hd)].
    + rewrite tick_no_timer by done. split; [done|]. by left.
    + destruct (decide (due = S (now s))) as [->|Hne].
      * rewrite (tick_due s _ _ Ht) by lia. simpl. split; [done|]. by left.
      * rewrite (tick_not_due s _ _ Ht) by lia. split; [done|]. right.
        split; [done|]. exists due. split; [done|]. simpl. lia.
  - simpl. unfold settle. by rewrite Ha.
Qed.

Lemma watch_events es s : watch_phase s -> watch_phase (events WatchDemo es s).
Proof.
  revert s. induction es as [|e es IH]; intros s Hs; [done|].
  rewrite events_cons. by apply IH, watch_step.
Qed.

Lemma watch_recovers s : watch_phase s -> isLoading (events WatchDemo (wait 2000) s) = false.
Proof.
  intros [Ha [[Hl Ht]|(Hl & due & Ht & Hd)]].
  - by rewrite wait_no_timer.
  - replace (wait 2000)
      with (wait ((due - now s - 1) + 1 + (2000 - (due - now s)))) by (f_equal; lia).
    rewrite !wait_add, wait_1.
    rewrite (wait_not_due _ _ s due _ Ht) by lia.
    rewrite (tick_due _ due [setIsLoading false]) by (simpl; done || lia).
    by rewrite wait_no_timer.
Qed.

(** X12. Whatever was clicked and however long was waited since the mount,
    WatchDemoButton has at most its one timer pending, it is loading exactly
    when that timer is pending, and 2000 ms without an event later it is
    not loading: the button cannot stay disabled. *)
Theorem watch_demo_always_recovers (es : list Event) :
  (length (timers (events WatchDemo es initial)) <= 1)
  /\ (isLoading (events WatchDemo es initial) = true
      <-> timers (events WatchDemo es initial) <> [])
  /\ isLoading (events WatchDemo (es ++ wait 2000) initial) = false.
Proof.
  assert (watch_phase (events WatchDemo es initial)) as H.
  { apply watch_events. split; [done|]. by left. }
  split; [|split].
  - destruct H as [_ [[_ ->]|(_ & due & -> & _)]]; simpl; lia.
  - destruct H as [_ [[-> ->]|(-> & due & -> & _)]]; split; done.
  - rewrite events_app. by apply watch_recovers.
Qed.

(** *** NotifyMeButton always comes back to rest *)

Lemma now_click_notify s : now (step NotifyMe s Click) = now s.
Proof.
  simpl. unfold click. destruct (onClick _); [|done].
  destruct (disabled _); [done|apply now_run].
Qed.

Lemma notify_step_within s e :
  (exists p, in_phase_within p s) -> exists p, in_phase_within p (step NotifyMe s e).
Proof.
  intros [p [Hp Hb]]. destruct e as [| |r].
  - destruct p as [|due|due].
    + exists (Loading (now s + 1500)). split; [by apply notify_click_at_rest|].
      rewrite now_click_notify. lia.
    + rewrite notify_click_ignored; [by exists (Loading due)|]. left. apply Hp.
    + rewrite notify_click_ignored; [by exists (Notified due)|]. right. apply Hp.
  - assert (now (step NotifyMe s Tick) = S (now s)) as Hnow by apply now_tick.
    destruct p as [|due|due].
    + exists AtRest. split; [|done]. destruct Hp as (Ha & Hl & Hn & Ht).
      simpl. rewrite tick_no_timer by done. done.
    + destruct (decide (due = S (now s))) as [Hd|Hd].
      * exists (Notified (due + 3000)).
        split; [by apply (notify_tick_loading_due s due)|]. rewrite Hnow. lia.
      * exists (Loading due).
        assert (now s + 1 < due) as Hlt by (destruct Hp as (_ & _ & _ & ? & _); lia).
        split; [apply (notify_wait_loading s due 1 Hp Hlt)|]. rewrite Hnow. lia.
    + destruct (decide (due = S (now s))) as [Hd|Hd].
      * exists AtRest. split; [by apply (notify_tick_notified_due s due)|done].
      * exists (Notified due).
        assert (now s + 1 < due) as Hlt by (destruct Hp as (_ & _ & _ & ? & _); lia).
        split; [apply (notify_wait_notified s due 1 Hp Hlt)|]. rewrite Hnow. lia.
  - exists p. simpl. unfold settle. destruct Hp as [Ha Hp]. rewrite Ha. done.
Qed.

Lemma notify_events_within es s :
  (exists p, in_phase_within p s) -> exists p, in_phase_within p (events NotifyMe es s).
Proof.
  revert s. induction es as [|e es IH]; intros s Hs; [done|].
  rewrite events_cons. by apply IH, notify_step_within.
Qed.

Lemma notify_rest_stays n s : in_phase AtRest s -> in_phase AtRest (events NotifyMe (wait n) s).
Proof. intros (Ha & Hl & Hn & Ht). by rewrite wait_no_timer. Qed.

Lemma notify_notified_ends s due :
  in_phase (Notified due) s -> in_phase AtRest (events NotifyMe (wait (due - now s)) s).
Proof.
  intros Hp. assert (now s < due) as Hlt by (destruct Hp as (_ & _ & _ & ? & _); lia).
  replace (due - now s) with ((due - now s - 1) + 1) by lia.
  rewrite wait_add, wait_1. apply (notify_tick_notified_due _ due).
  - apply notify_wait_notified; [done|lia].
  - rewrite now_wait. lia.
Qed.

Lemma notify_loading_ends s due :
  in_phase (Loading due) s ->
  in_phase (Notified (due + 3000)) (events NotifyMe (wait (due - now s)) s).
Proof.
  intros Hp. assert (now s < due) as Hlt by (destruct Hp as (_ & _ & _ & ? & _); lia).
  replace (due - now s) with ((due - now s - 1) + 1) by lia.
  rewrite wait_add, wait_1. apply (notify_tick_loading_due _ due).
  - apply notify_wait_loading; [done|lia].
  - rewrite now_wait. lia.
Qed.

Lemma notify_recovers s :
  (exists p, in_phase_within p s) -> in_phase AtRest (events NotifyMe (wait 4500) s).
Proof.
  intros [[|due|due] [Hp Hb]].
  - by apply notify_rest_stays.
  - assert (now s < due) as Hlt by (destruct Hp as (_ & _ & _ & ? & _); lia).
    replace (wait 4500)
      with (wait ((due - now s) + 3000 + (1500 - (due - now s)))) by (f_equal; lia).
    rewrite !wait_add. apply notify_rest_stays.
    pose proof (notify_loading_ends s due Hp) as H2.
    pose proof (notify_notified_ends _ _ H2) as H3.
    rewrite now_wait in H3.
    replace (due + 3000 - (now s + (due - now s))) with 3000 in H3 by lia. done.
  - assert (now s < due) as Hlt by (destruct Hp as (_ & _ & _ & ? & _); lia).
    replace (wait 4500)
      with (wait ((due - now s) + (4500 - (due - now s)))) by (f_equal; lia).
    rewrite wait_add. by apply notify_rest_stays, notify_notified_ends.
Qed.

(** X13. Whatever was clicked and however long was waited since the mount,
    4500 ms without an event later NotifyMeButton is at rest: both flags
    clear, no timer pending, the button clickable again. *)
Theorem notify_me_always_recovers (es : list Event) :
  in_phase AtRest (events NotifyMe (es ++ wait 4500) initial)
  /\ onClick (render NotifyMe (events NotifyMe (es ++ wait 4500) initial))
     = Some NotifyMeButton.handleNotifyMe
  /\ disabled (render NotifyMe (events NotifyMe (es ++ wait 4500) initial)) = false.
Proof.
  assert (in_phase AtRest (events NotifyMe (es ++ wait 4500) initial)) as H.
  { rewrite events_app. apply notify_recovers, notify_events_within.
    by exists AtRest. }
  split; [done|]. destruct H as (_ & Hl & Hn & _).
  simpl. unfold NotifyMeButton.render. by rewrite Hn, Hl.
Qed.

(** *** Who writes to the console *)

Lemma run_silent cs s :
  existsb may_log cs = false -> silent s -> silent (run cs s).
Proof.
  revert s. induction cs as [|c cs IH]; intros s Hcs Hs; [done|].
  simpl in Hcs. apply orb_false_iff in Hcs as [Hc Hcs].
  destruct Hs as (Hcon & Ha & Ht).
  destruct c; simpl in Hc; try done; simpl; apply IH; try done.
  split; [done|]. split; [done|]. simpl.
  apply Forall_app. split; [done|]. by constructor.
Qed.

Lemma callbacks_silent (due : list (nat * list Cmd)) s :
  Forall (fun timer => existsb may_log (snd timer) = false) due ->
  silent s -> silent (fold_left (fun st timer => run (snd timer) st) due s).
Proof.
  intros Hdue. revert s. induction Hdue as [|t due Ht _ IH]; intros s Hs; [done|].
  simpl. by apply IH, run_silent.
Qed.

Lemma Forall_List_filter {A} (P : A -> Prop) (f : A -> bool) (l : list A) :
  Forall P l -> Forall P (List.filter f l).
Proof.
  induction 1 as [|x l Hx _ IH]; simpl; [done|].
  destruct (f x); [by constructor|done].
Qed.

Lemma tick_silent s : silent s -> silent (tick s).
Proof.
  intros (Hcon & Ha & Ht). unfold tick. apply callbacks_silent.
  - by apply Forall_List_filter.
  - split; [done|]. split; [done|]. simpl. by apply Forall_List_filter.
Qed.

Lemma step_silent b s e :
  existsb may_log (handler b) = false -> silent s -> silent (step b s e).
Proof.
  intros Hb Hs. destruct e as [| |r].
  - simpl. unfold click.
    assert (forall h, onClick (render b s) = Some h -> h = handler b) as Hh.
    { destruct b; simpl; unfold NotifyMeButton.render;
        try destruct (isNotified s); simpl; congruence. }
    destruct (onClick (render b s)) as [h|] eqn:Ho; [|done].
    rewrite (Hh h eq_refl). destruct (disabled _); [done|]. by apply run_silent.
  - by apply tick_silent.
  - simpl. unfold settle. pose proof Hs as (_ & Ha & _). by rewrite Ha.
Qed.

Lemma sign_out_console_step s e :
  timers s = [] ->
  (awaiting s = None
   \/ awaiting s = Some (fun error => [setIsLoading false;
                                       console_error "Sign out error:" error], [])) ->
  Forall (fun entry => fst entry = "Sign out error:") (console s) ->
  timers (step SignOut s e) = []
  /\ (awaiting (step SignOut s e) = None
      \/ awaiting (step SignOut s e)
         = Some (fun error => [setIsLoading false;
                               console_error "Sign out error:" error], []))
  /\ Forall (fun entry => fst entry = "Sign out error:") (console (step SignOut s e))
  /\ length (console (step SignOut s e)) <= length (console s) + rejections [e].
Proof.
  intros Ht Ha Hc. destruct e as [| |[|error]]; simpl.
  - unfold click. simpl. destruct (isLoading s); simpl.
    + split; [done|]. split; [done|]. split; [done|]. lia.
    + split; [done|]. split; [by right|]. split; [done|]. lia.
  - rewrite tick_no_timer by done. simpl. split; [done|]. split; [done|].
    split; [done|]. lia.
  - unfold settle. destruct Ha as [Ha | Ha]; rewrite Ha; simpl.
    + split; [done|]. split; [by left|]. split; [done|]. lia.
    + split; [done|]. split; [by left|]. split; [done|]. lia.
  - unfold settle. destruct Ha as [Ha | Ha]; rewrite Ha; simpl.
    + split; [done|]. split; [by left|]. split; [done|]. unfold rejections. simpl. lia.
    + split; [done|]. split; [by left|]. split.
      * apply Forall_app. split; [done|]. by constructor.
      * rewrite length_app. unfold rejections. simpl. lia.
Qed.

Lemma rejections_cons e es : rejections (e :: es) = rejections [e] + rejections es.
Proof. unfold rejections. simpl. by destruct e as [| |[|?]]. Qed.

Lemma sign_out_console_events es s :
  timers s = [] ->
  (awaiting s = None
   \/ awaiting s = Some (fun error => [setIsLoading false;
                                       console_error "Sign out error:" error], [])) ->
  Forall (fun entry => fst entry = "Sign out error:") (console s) ->
  Forall (fun entry => fst entry = "Sign out error:") (console (events SignOut es s))
  /\ length (console (events SignOut es s)) <= length (console s) + rejections es.
Proof.
  revert s. induction es as [|e es IH]; intros s Ht Ha Hc.
  - split; [done|]. cbv [events fold_left]. lia.
  - rewrite events_cons, rejections_cons.
    destruct (sign_out_console_step s e Ht Ha Hc) as (Ht' & Ha' & Hc' & Hlen).
    destruct (IH _ Ht' Ha' Hc') as [H1 H2]. split; [done|]. lia.
Qed.

(** X14. A button whose handler holds no [console.error] and no [try]
    never writes to the console, whatever happens after the mount; that is
    every button but SignOutButton.  Every line SignOutButton writes is
    labelled "Sign out error:", and it writes at most one line per rejected
    [signOut]. *)
Theorem console_discipline (b : Button) (es : list Event) :
  (existsb may_log (handler b) = false -> console (events b es initial) = [])
  /\ (b <> SignOut -> console (events b es initial) = [])
  /\ Forall (fun entry => fst entry = "Sign out error:")
            (console (events SignOut es initial))
  /\ length (console (events SignOut es initial)) <= rejections es.
Proof.
  assert (existsb may_log (handler b) = false -> console (events b es initial) = [])
    as Hquiet.
  { intros Hb. assert (silent initial) as Hs by (split; [done|split; [done|constructor]]).
    revert Hs. generalize initial.
    induction es as [|e es IH]; intros s Hs; [apply Hs|].
    rewrite events_cons. by apply IH, step_silent. }
  split; [done|]. split.
  - intros Hb. apply Hquiet. by destruct b.
  - by apply (sign_out_console_events es initial); [|left|constructor].
Qed.

Lemma console_discipline_witness :
  existsb may_log (handler WatchDemo) = false
  /\ console (events WatchDemo [Click; Tick; Click] initial) = [].
Proof.
  split; [done|].
  exact (proj1 (console_discipline WatchDemo [Click; Tick; Click]) eq_refl).
Defined.

(** *** SignOutButton can be tried again *)

Lemma sign_out_failed_attempt s error :
  idle s ->
  idle (events SignOut [Click; Settled (Rejected error)] s)
  /\ console (events SignOut [Click; Settled (Rejected error)] s)
     = (console s ++ [("Sign out error:", error)])%list.
Proof.
  intros (Hl & Hn & Ht & Ha). destruct s; simpl in *; subst.
  cbv [events fold_left step click render SignOutButton.render onClick disabled
       isLoading]. simpl. done.
Qed.

(** X15. After a failed sign-out the button is at rest again and can be
    clicked again: any number of attempts that all fail leave it at rest,
    with one console line per attempt, in the order of the attempts. *)
Theorem sign_out_retries (errors : list Error) (s : State) :
  idle s ->
  idle (events SignOut (failed_attempts errors) s)
  /\ console (events SignOut (failed_attempts errors) s)
     = (console s ++ map (fun error => ("Sign out error:", error)) errors)%list.
Proof.
  revert s. induction errors as [|error errors IH]; intros s Hs.
  - cbv [failed_attempts flat_map events fold_left]. simpl. by rewrite app_nil_r.
  - change (failed_attempts (error :: errors))
      with ([Click; Settled (Rejected error)] ++ failed_attempts errors)%list.
    rewrite events_app.
    destruct (sign_out_failed_attempt s error Hs) as [H1 H2].
    destruct (IH _ H1) as [H3 H4]. split; [done|].
    rewrite H4, H2, <- app_assoc. done.
Qed.

Lemma sign_out_retries_witness :
  idle initial
  /\ console (events SignOut (failed_attempts ["offline"; "timeout"]) initial)
     = [("Sign out error:", "offline"); ("Sign out error:", "timeout")].
Proof.
  assert (idle initial) as H by done. split; [done|].
  exact (proj2 (sign_out_retries ["offline"; "timeout"] initial H)).
Defined.

End ButtonFacts.

(** * Properties of the teardown *)

Module TeardownFacts.
Import Teardown.

Lemma remove_first_absent {A} `{EqDecision A} (x : A) l : x ∉ l -> remove_first x l = l.
Proof.
  induction l as [|y l IH]; intros Hx; [done|]. simpl.
  apply not_elem_of_cons in Hx as [Hne Hx]. rewrite decide_False by done.
  by rewrite IH.
Qed.

Lemma remove_first_snoc {A} `{EqDecision A} (x : A) l :
  x ∉ l -> remove_first x (l ++ [x]) = l.
Proof.
  induction l as [|y l IH]; intros Hx; simpl.
  - by rewrite decide_True.
  - apply not_elem_of_cons in Hx as [Hne Hx]. rewrite decide_False by done.
    by rewrite IH.
Qed.

(** C9. When the canvas is a child of the container, the teardown succeeds
    and changes exactly this: the resize observer observes nothing, the
    [onPointerMove] listener is off the window, the animation loop is
    stopped, the renderer and the PMREM generator are disposed, the canvas
    is out of the container.  The renderer reference, the geometry, the
    material and the environment are as they were.  After a mount, the
    teardown leaves the window listeners and the container as before the
    mount. *)
Theorem teardown_effect (w : World) :
  Canvas ∈ container_children w ->
  teardown w
  = Returned {| ro_observes := [];
                window_pointermove := remove_first onPointerMove (window_pointermove w);
                animationLoop := None;
                renderer_disposed := true;
                pmrem_disposed := true;
                container_children := remove_first Canvas (container_children w);
                rendererRef_current := rendererRef_current w;
                geometry_disposed := geometry_disposed w;
                material_disposed := material_disposed w;
                environment_disposed := environment_disposed w |}
  /\ (forall w0, w = mount w0 ->
        onPointerMove ∉ window_pointermove w0 -> Canvas ∉ container_children w0 ->
        exists w', teardown w = Returned w'
          /\ window_pointermove w' = window_pointermove w0
          /\ container_children w' = container_children w0).
Proof.
  intros Hc.
  assert (teardown w = Returned {| ro_observes := [];
            window_pointermove := remove_first onPointerMove (window_pointermove w);
            animationLoop := None;
            renderer_disposed := true;
            pmrem_disposed := true;
            container_children := remove_first Canvas (container_children w);
            rendererRef_current := rendererRef_current w;
            geometry_disposed := geometry_disposed w;
            material_disposed := material_disposed w;
            environment_disposed := environment_disposed w |}) as Ht.
  { unfold teardown, removeChild. simpl. by rewrite decide_True. }
  split; [done|].
  intros w0 -> Hl Hch. eexists. split; [done|]. simpl. split.
  - unfold add_listener. rewrite decide_False by done. by apply remove_first_snoc.
  - rewrite (remove_first_absent Canvas (container_children w0)) by done.
    by apply remove_first_snoc.
Qed.

Lemma teardown_effect_witness :
  exists w',
    teardown (mount {| ro_observes := []; window_pointermove := [OtherListener 0];
                       animationLoop := None; renderer_disposed := false;
                       pmrem_disposed := false;
                       container_children := [OtherElement 0];
                       rendererRef_current := None;
                       geometry_disposed := false;
                       material_disposed := false;
                       environment_disposed := false |})
    = Returned w'.
Proof.
  eexists.
  refine (proj1 (teardown_effect (mount _) _)).
  apply list_elem_of_In. simpl. auto.
Defined.

(** * Further properties of the teardown *)

(** X17. The teardown throws exactly when the canvas is not a child of the
    container, and then its first five steps have taken effect all the
    same: the observer is disconnected, the listener removed, the loop
    stopped, the renderer and the PMREM generator disposed.  So it cannot
    run twice: after a mount into a container without the canvas, the first
    teardown succeeds and a second one throws. *)
Theorem teardown_throws_without_canvas (w : World) :
  ((exists w', teardown w = Thrown w') <-> Canvas ∉ container_children w)
  /\ (Canvas ∉ container_children w ->
      teardown w
      = Thrown {| ro_observes := [];
                  window_pointermove := remove_first onPointerMove (window_pointermove w);
                  animationLoop := None;
                  renderer_disposed := true;
                  pmrem_disposed := true;
                  container_children := container_children w;
                  rendererRef_current := rendererRef_current w;
                  geometry_disposed := geometry_disposed w;
                  material_disposed := material_disposed w;
                  environment_disposed := environment_disposed w |})
  /\ (Canvas ∉ container_children w ->
      exists w', teardown (mount w) = Returned w'
                 /\ exists w'', teardown w' = Thrown w'').
Proof.
  assert (forall v, Canvas ∉ container_children v ->
            teardown v
            = Thrown {| ro_observes := [];
                        window_pointermove := remove_first onPointerMove (window_pointermove v);
                        animationLoop := None;
                        renderer_disposed := true;
                        pmrem_disposed := true;
                        container_children := container_children v;
                        rendererRef_current := rendererRef_current v;
                        geometry_disposed := geometry_disposed v;
                        material_disposed := material_disposed v;
                        environment_disposed := environment_disposed v |}) as Hthrown.
  { intros v Hv. unfold teardown, removeChild. simpl. by rewrite decide_False. }
  assert (forall v, Canvas ∈ container_children v -> exists v', teardown v = Returned v')
    as Hreturned.
  { intros v Hv. unfold teardown, removeChild. simpl. rewrite decide_True by done.
    by eexists. }
  split; [|split; [apply Hthrown|]].
  - split.
    + intros [w' Hw'] Hin. destruct (Hreturned w Hin) as [v' Hv']. congruence.
    + intros Hc. eexists. by apply Hthrown.
  - intros Hc.
    assert (Canvas ∈ container_children (mount w)) as Hin.
    { simpl. apply elem_of_app. right. left. }
    eexists. split.
    + unfold teardown, removeChild. simpl.
      rewrite decide_True by (apply elem_of_app; right; left). reflexivity.
    + eexists. apply Hthrown. simpl.
      rewrite (remove_first_absent Canvas (container_children w)) by done.
      by rewrite remove_first_snoc.
Qed.

Lemma teardown_throws_without_canvas_witness :
  exists w', teardown (mount {| ro_observes := []; window_pointermove := [];
                                animationLoop := None; renderer_disposed := false;
                                pmrem_disposed := false;
                                container_children := [];
                                rendererRef_current := None;
                                geometry_disposed := false;
                                material_disposed := false;
                                environment_disposed := false |}) = Returned w'
             /\ exists w'', teardown w' = Thrown w''.
Proof.
  refine (proj2 (proj2 (teardown_throws_without_canvas _)) _).
  simpl. apply not_elem_of_nil.
Defined.

End TeardownFacts.

(** * Properties of the pages *)

Module PageFacts.
Import Pages.

Local Open Scope string_scope.

(** C3, as the code has it.  Home redirects to "/home" exactly when the
    session has a user and renders the landing page otherwise; ComingSoon
    redirects to "/" exactly when the session has no user and renders its
    page otherwise.  Home, and the redirect decision of ComingSoon, use the
    session only to test for a user; the page ComingSoon renders also shows
    the user's image and name. *)
Theorem session_redirects :
  (forall session, Home session = Redirect "/home" <-> has_user session = true)
  /\ (forall session, has_user session = false -> Home session = Render Landing)
  /\ (forall session, ComingSoon session = Redirect "/" <-> has_user session = false)
  /\ (forall session u, session_user session = Some u ->
        ComingSoon session
        = Render {| avatar_src := default "/placeholder-avatar.png" (image u);
                    avatar_alt := default "User" (name u);
                    shown_name := name u |})
  /\ presence_only Home
  /\ presence_only (fun session => redirect_of (ComingSoon session)).
Proof.
  unfold presence_only, has_user, Home, ComingSoon.
  repeat split; intros;
    repeat match goal with
           | H : context [session_user ?s] |- _ => destruct (session_user s)
           | |- context [session_user ?s] => destruct (session_user s)
           end; simpl in *; congruence.
Qed.

Lemma session_redirects_witness :
  has_user None = false /\ Home None = Render Landing.
Proof.
  split; [done|]. exact (proj1 (proj2 session_redirects) None eq_refl).
Defined.

(** C3 as stated fails: two sessions that both have a user, with different
    names, get different ComingSoon pages. *)
Lemma coming_soon_shows_the_user : ~ presence_only ComingSoon.
Proof.
  intros H.
  specialize (H (Some {| user := Some {| name := Some "Asha"; email := None;
                                         image := None |};
                         expires := "" |})
                (Some {| user := Some {| name := Some "Ravi"; email := None;
                                         image := None |};
                         expires := "" |})
                eq_refl).
  discriminate H.
Qed.

(** * Further properties of the pages *)

(** X16. The two pages never bounce a visitor back and forth: from "/" and
    from "/home" at most one redirect is followed, and the visitor sees the
    ComingSoon page with the user's image and name exactly when the session
    has a user, and the landing page otherwise.  A visitor with a user is
    served "/home" without a redirect, one without a user is served "/"
    without a redirect. *)
Theorem no_redirect_loop (session : option Session) (url : string) :
  url = "/" \/ url = "/home" ->
  visit 1 url session
  = Some match session_user session with
         | Some u => ShowComingSoon
                       {| avatar_src := default "/placeholder-avatar.png" (image u);
                          avatar_alt := default "User" (name u);
                          shown_name := name u |}
         | None => ShowLanding
         end
  /\ (has_user session = true -> visit 0 "/home" session = visit 1 url session)
  /\ (has_user session = false -> visit 0 "/" session = visit 1 url session).
Proof.
  intros [-> | ->]; unfold has_user; simpl; unfold route; simpl;
    unfold Home, ComingSoon; destruct (session_user session); simpl;
    (split; [done|]); split; intros; done.
Qed.

Lemma no_redirect_loop_witness :
  visit 1 "/home" None = Some ShowLanding.
Proof. exact (proj1 (no_redirect_loop None "/home" (or_intror eq_refl))). Defined.

End PageFacts.
